(** * EasyWeather: zone grid, temperature gradient and batch refresh

    A shallow embedding of the map screens of the EasyWeather application
    (the location-centred geofencing screen and the San Jose screen), and
    the properties of their pure helpers: [generateZones],
    [computeCentroid], [getTemperatureColor] and the refresh cycle
    [fetchZoneTemperatures].

    Numbers.  A TypeScript [number] is modelled by an exact rational [Q]:
    comparisons are the boolean tests [Qle_bool] and [Qlt_bool], [+ - * /] are the
    field operations, and [Math.round] is rounding half up.  Rounding error
    of double arithmetic, infinities and NaN are outside this model.
    Equality of numbers is [Qeq] ([==]), as JavaScript's numeric equality
    does not see the representation either.  Where rounding, NaN or
    [undefined] decide a property, module [Binary64] embeds the grid, the
    centroid and the gradient a second time over IEEE 754 doubles.

    Colours.  The screens hand the map a CSS string [rgba(r, g, b, a)];
    the embedding keeps its four components in the record [Rgba]. *)

From Stdlib Require Import QArith Qround Lqa ZArith Lia List String Bool.
From Stdlib Require Import DecimalString SpecFloat.
Import ListNotations.

Local Open Scope Q_scope.

(* ------------------------------------------------------------------ *)
(** ** Numbers and strings of the host language *)

(** [Math.round]: the nearest integer, ties towards +infinity. *)
Definition Math_round (x : Q) : Z := Qfloor (x + (1 # 2)).

(** [a < b] on numbers. *)
Definition Qlt_bool (a b : Q) : bool := negb (Qle_bool b a).

(** [`${n}`] for a counter. *)
Definition string_of_nat (n : nat) : string :=
  NilEmpty.string_of_uint (Nat.to_uint n).

(** [for (let i = 0; i < n; i++) body]: the body threaded through the
    indices 0 .. n-1. *)
Definition for_loop {St : Type} (n : nat) (body : St -> nat -> St) (init : St) : St :=
  fold_left body (seq 0 n) init.

(* ------------------------------------------------------------------ *)
(** ** Interfaces *)

Record Coordinate : Type := mkCoordinate {
  latitude : Q;
  longitude : Q
}.

Record Zone : Type := mkZone {
  id : string;
  coordinates : list Coordinate;
  temperature : option Q
}.

(** [color: [number, number, number]]; the table holds integers and
    [Math.round] produces integers. *)
Definition Color : Type := (Z * Z * Z)%type.

Definition color0 (c : Color) : Z := fst (fst c).
Definition color1 (c : Color) : Z := snd (fst c).
Definition color2 (c : Color) : Z := snd c.

Record GradientStop : Type := mkStop {
  temp : Q;
  color : Color
}.

(** The CSS colour [rgba(red, green, blue, alpha)]. *)
Record Rgba : Type := mkRgba {
  red : Z;
  green : Z;
  blue : Z;
  alpha : Q
}.

(** Equality of coordinates as numbers. *)
Definition coord_eq (a b : Coordinate) : Prop :=
  latitude a == latitude b /\ longitude a == longitude b.

(* ------------------------------------------------------------------ *)
(** ** Grid and zone parameters *)

Definition numberOfRows : nat := 8.
Definition numberOfColumns : nat := 6.

Definition latStep : Q := 8 # 100.   (* 0.08 *)
Definition lonStep : Q := 10 # 100.  (* 0.10 *)

Definition Qnat (n : nat) : Q := inject_Z (Z.of_nat n).

(** The four corners pushed for the cell at ([row], [col]). *)
Definition zoneCorners (latStart lonStart : Q) (row col : nat) : list Coordinate :=
  let latMin := latStart + Qnat row * latStep in
  let latMax := latStart + Qnat (row + 1) * latStep in
  let lonMin := lonStart + Qnat col * lonStep in
  let lonMax := lonStart + Qnat (col + 1) * lonStep in
  [ mkCoordinate latMin lonMin;
    mkCoordinate latMin lonMax;
    mkCoordinate latMax lonMax;
    mkCoordinate latMax lonMin ].

(** [generateZones]: the state of the two nested loops is the array
    [zones] and the counter [zoneCount]. *)
Definition generateZones (latStart lonStart : Q) : list Zone :=
  let init : list Zone * nat := ([], 0%nat) in
  let final :=
    for_loop numberOfRows (fun st row =>
      for_loop numberOfColumns (fun st col =>
        let '(zones, zoneCount) := st in
        let zoneCount := (zoneCount + 1)%nat in
        let coordinates := zoneCorners latStart lonStart row col in
        (zones ++ [ mkZone (String.append "zone" (string_of_nat zoneCount))
                           coordinates
                           None ],
         zoneCount)) st) init in
  fst final.

(* ------------------------------------------------------------------ *)
(** ** Helper functions *)

(** [computeCentroid]: [reduce] from the zero coordinate, then a division
    by [coordinates.length].  (On the empty array JavaScript yields NaN;
    the rational model yields 0 there.  No zone has an empty array.) *)
Definition computeCentroid (coordinates : list Coordinate) : Coordinate :=
  let total :=
    fold_left (fun acc cur =>
                 mkCoordinate (latitude acc + latitude cur)
                              (longitude acc + longitude cur))
              coordinates (mkCoordinate 0 0) in
  mkCoordinate (latitude total / Qnat (List.length coordinates))
               (longitude total / Qnat (List.length coordinates)).

(** The gradient stops, defined once. *)
Definition gradient : list GradientStop :=
  [ mkStop (-10)        (0, 0, 139)%Z;      (* Very dark blue *)
    mkStop (-75 # 10)   (0, 0, 205)%Z;      (* Dark blue *)
    mkStop (-5)         (0, 0, 255)%Z;      (* Blue *)
    mkStop (-25 # 10)   (173, 216, 230)%Z;  (* Light blue *)
    mkStop 0            (240, 248, 255)%Z;  (* Blue whitish blue *)
    mkStop (25 # 10)    (255, 255, 224)%Z;  (* Very light yellow *)
    mkStop 5            (255, 255, 153)%Z;  (* Light yellow *)
    mkStop (75 # 10)    (255, 255, 0)%Z;    (* Yellow *)
    mkStop 10           (255, 255, 0)%Z;    (* Yellow (plateau) *)
    mkStop (125 # 10)   (204, 204, 0)%Z;    (* Dark yellow *)
    mkStop 15           (255, 165, 100)%Z;  (* Light orange *)
    mkStop (175 # 10)   (255, 140, 0)%Z;    (* Orange *)
    mkStop 20           (255, 120, 0)%Z;    (* Dark orange *)
    mkStop 25           (255, 80, 80)%Z;    (* Light red *)
    mkStop 28           (255, 0, 0)%Z;      (* Red *)
    mkStop 32           (139, 0, 0)%Z;      (* Dark red *)
    mkStop 35           (100, 0, 0)%Z ].    (* Very dark red *)

(** The default of [rgbaFromColor]'s second parameter. *)
Definition defaultAlpha : Q := 5 # 10.

Definition rgbaFromColor (c : Color) (a : Q) : Rgba :=
  mkRgba (color0 c) (color1 c) (color2 c) a.

(** ['rgba(128, 128, 128, 0.3)'] *)
Definition neutralGray : Rgba := mkRgba 128 128 128 (3 # 10).

(** One channel of the interpolation step. *)
Definition mixChannel (s e : Z) (factor : Q) : Z :=
  Math_round (inject_Z s + factor * (inject_Z e - inject_Z s)).

(** The body of the [if] inside the loop, for the stops [start] and
    [end_] of one iteration. *)
Definition interpolateBetween (start end_ : GradientStop) (t : Q) : Rgba :=
  let factor := (t - temp start) / (temp end_ - temp start) in
  let r := mixChannel (color0 (color start)) (color0 (color end_)) factor in
  let g := mixChannel (color1 (color start)) (color1 (color end_)) factor in
  let b := mixChannel (color2 (color start)) (color2 (color end_)) factor in
  rgbaFromColor (r, g, b) defaultAlpha.

(** The test of one iteration. *)
Definition encloses (start end_ : GradientStop) (t : Q) : bool :=
  Qle_bool (temp start) t && Qle_bool t (temp end_).

(** The loop [for (i = 0; i < gradient.length - 1; i++)]: iteration [i]
    reads [gradient[i]] and [gradient[i + 1]], the first two elements of
    the [i]-th suffix, and the loop stops when fewer than two stops
    remain.  [Some c] is a [return] from inside the loop, [None] is the
    loop running to its end. *)
Fixpoint interpolationLoop (t : Q) (stops : list GradientStop) : option Rgba :=
  match stops with
  | start :: rest =>
      match rest with
      | end_ :: _ =>
          if encloses start end_ t then Some (interpolateBetween start end_ t)
          else interpolationLoop t rest
      | [] => None
      end
  | [] => None
  end.

(** [getTemperatureColor] over a table.  Reading [gradient[0].temp] of an
    empty table throws a TypeError: [None].  Every other index the
    function reads is in range; [gradient[gradient.length - 1]] is the
    last element of the table. *)
Definition getTemperatureColorFrom
    (table : list GradientStop) (temperature : option Q) : option Rgba :=
  match temperature with
  | None => Some neutralGray
  | Some t =>
      match table with
      | [] => None
      | first :: _ =>
          if Qle_bool t (temp first) then
            Some (rgbaFromColor (color first) defaultAlpha)
          else
            let last_ := last table first in
            if Qle_bool (temp last_) t then
              Some (rgbaFromColor (color last_) defaultAlpha)
            else
              match interpolationLoop t table with
              | Some c => Some c
              | None => Some neutralGray   (* Fallback *)
              end
      end
  end.

(** The screen's function: the table is the constant [gradient]. *)
Definition getTemperatureColor (temperature : option Q) : option Rgba :=
  getTemperatureColorFrom gradient temperature.

(* ------------------------------------------------------------------ *)
(** ** Promises and the weather provider *)

(** A settled promise. *)
Inductive Settled (A : Type) : Type :=
| Fulfilled (value : A)
| Rejected (message : string).

Arguments Fulfilled {A} value.
Arguments Rejected {A} message.

(** A promise that settles at some instant of the cycle. *)
Definition Promise (A : Type) : Type := (nat * Settled A)%type.

(** [await p] followed by a pure continuation. *)
Definition thenMap {A B : Type} (f : A -> B) (p : Promise A) : Promise B :=
  match p with
  | (at_, Fulfilled v) => (at_, Fulfilled (f v))
  | (at_, Rejected m) => (at_, Rejected m)
  end.

(** The rejection that happens first; of two at the same instant, the
    one earlier in the array. *)
Fixpoint firstRejection {A : Type} (ps : list (Promise A)) : option (nat * string) :=
  match ps with
  | [] => None
  | (at_, Rejected m) :: rest =>
      match firstRejection rest with
      | Some (at', m') => if (at' <? at_)%nat then Some (at', m') else Some (at_, m)
      | None => Some (at_, m)
      end
  | (_, Fulfilled _) :: rest => firstRejection rest
  end.

Fixpoint fulfilledValues {A : Type} (ps : list (Promise A)) : list A :=
  match ps with
  | [] => []
  | (_, Fulfilled v) :: rest => v :: fulfilledValues rest
  | (_, Rejected _) :: rest => fulfilledValues rest
  end.

(** [Promise.all]: rejects with the first rejection, otherwise fulfils
    with the values in array order. *)
Definition Promise_all {A : Type} (ps : list (Promise A)) : Settled (list A) :=
  match firstRejection ps with
  | Some (_, m) => Rejected m
  | None => Fulfilled (fulfilledValues ps)
  end.

(** What the weather service does with one request: the request itself
    fails, or a response arrives whose [ok] flag is read first and whose
    body then yields [json.hourly.temperature_2m[0]] or throws. *)
Inductive Response : Type :=
| NetworkFailure (message : string)
| HttpResponse (ok : bool) (body : Settled Q).

(** [err.message || 'Error fetching temperatures'] *)
Definition messageOr (message fallback : string) : string :=
  match message with
  | EmptyString => fallback
  | _ => message
  end.

(* ------------------------------------------------------------------ *)
(** ** Component state and the refresh cycle *)

Record ScreenState : Type := mkState {
  zones : list Zone;
  loading : bool;
  error : option string;
  apiCallCount : nat          (* apiCallCountRef.current *)
}.

Definition setZones (zs : list Zone) (st : ScreenState) : ScreenState :=
  mkState zs (loading st) (error st) (apiCallCount st).
Definition setLoading (b : bool) (st : ScreenState) : ScreenState :=
  mkState (zones st) b (error st) (apiCallCount st).
Definition setError (e : option string) (st : ScreenState) : ScreenState :=
  mkState (zones st) (loading st) e (apiCallCount st).
Definition incrementCallCount (st : ScreenState) : ScreenState :=
  mkState (zones st) (loading st) (error st) (apiCallCount st + 1).

Section Refresh.

(** The weather service during one cycle: for the point asked, the
    instant the request settles and what it settles to. *)
Variable service : Q -> Q -> nat * Response.

(** [fetchTemperatureForZone], after its call to [incrementCallCount]
    (which [fetchZoneTemperatures] below accounts for). *)
Definition fetchTemperatureForZone (lat lon : Q) : Promise Q :=
  match service lat lon with
  | (at_, NetworkFailure m) => (at_, Rejected m)
  | (at_, HttpResponse false _) => (at_, Rejected "Failed to fetch temperature")
  | (at_, HttpResponse true body) => (at_, body)
  end.

(** The [async (zone) => ...] mapped over the zones. *)
Definition updateZone (zone : Zone) : Promise Zone :=
  let centroid := computeCentroid (coordinates zone) in
  thenMap (fun t => mkZone (id zone) (coordinates zone) (Some t))
          (fetchTemperatureForZone (latitude centroid) (longitude centroid)).

(** [fetchZoneTemperatures]: try / catch / finally over [Promise.all].
    Every mapped callback runs up to its first [await], so the call
    counter is bumped once per zone whatever the outcome. *)
Definition fetchZoneTemperatures
    (zonesToUpdate : list Zone) (st : ScreenState) : ScreenState :=
  let st := fold_left (fun s _ => incrementCallCount s) zonesToUpdate st in
  let st :=
    match Promise_all (map updateZone zonesToUpdate) with
    | Fulfilled updatedZones => setZones updatedZones st
    | Rejected message =>
        setError (Some (messageOr message "Error fetching temperatures")) st
    end in
  setLoading false st.

(** The fetch for [zone] fails in this cycle. *)
Definition fetchFails (zone : Zone) : Prop :=
  exists m, snd (updateZone zone) = Rejected m.

End Refresh.

(* ------------------------------------------------------------------ *)
(** ** The San Jose screen *)

Module SanJose.

(** The four-bucket [getTemperatureColor] of the San Jose screen. *)
Definition getTemperatureColor (temperature : option Q) : Rgba :=
  match temperature with
  | None => mkRgba 128 128 128 (3 # 10)                        (* Gray if unknown *)
  | Some t =>
      if Qlt_bool t 5 then mkRgba 0 0 255 (3 # 10)             (* Blue for cold *)
      else if Qlt_bool t 12 then mkRgba 0 255 0 (3 # 10)       (* Green for mild *)
      else if Qlt_bool t 13 then mkRgba 255 165 0 (3 # 10)     (* Orange for warm *)
      else mkRgba 255 0 0 (3 # 10)                             (* Red for hot *)
  end.

End SanJose.

(* ------------------------------------------------------------------ *)
(** ** Truthiness *)

(** An optional string in a condition: [undefined], [null] and the empty
    string are falsy. *)
Definition truthy (s : option string) : bool :=
  match s with
  | Some (String _ _) => true
  | _ => false
  end.

(** [a || b] where [b] is a string literal. *)
Definition orString (a : option string) (b : string) : string :=
  match a with
  | Some (String c r) => String c r
  | _ => b
  end.

(** [a || b] between two optional strings. *)
Definition orOption (a b : option string) : option string :=
  if truthy a then a else b.

(** A number in a condition: zero is falsy. *)
Definition truthyNumber (x : Q) : bool := negb (Qeq_bool x 0).

(** [n.toString()] for an integer. *)
Definition string_of_Z (z : Z) : string :=
  NilEmpty.string_of_int (Z.to_int z).

(* ------------------------------------------------------------------ *)
(** ** The location hook *)

Module UseLocation.

Record Result : Type := mkResult {
  location : option Coordinate;
  errorMsg : option string
}.

Definition initial : Result := mkResult None None.

(** What the platform answers during the effect: the permission request
    rejects, or it resolves with a status, after which (when granted) the
    position request resolves with coordinates or rejects. *)
Inductive Platform : Type :=
| PermissionRejects
| PermissionStatus (status : string) (position : option Coordinate).

(** The body of the effect.  A rejected request is an unhandled rejection
    of the anonymous async function: no state is set. *)
Definition effect (p : Platform) (r : Result) : Result :=
  match p with
  | PermissionRejects => r
  | PermissionStatus status position =>
      if negb (String.eqb status "granted") then
        mkResult (location r) (Some "Permission to access location was denied"%string)
      else
        match position with
        | Some loc => mkResult (Some (mkCoordinate (latitude loc) (longitude loc)))
                               (errorMsg r)
        | None => r
        end
  end.

(** [useLocation()] once the effect has run. *)
Definition useLocation (p : Platform) : Result := effect p initial.

End UseLocation.

(* ------------------------------------------------------------------ *)
(** ** The location-centred screen: effects and rendering *)

(** The grid of the location effect, centred on the location. *)
Definition initialZones (loc : Coordinate) : list Zone :=
  let latStart := latitude loc - (Qnat numberOfRows * latStep) / 2 in
  let lonStart := longitude loc - (Qnat numberOfColumns * lonStep) / 2 in
  generateZones latStart lonStart.

(** The effect on [location]: publish the fresh grid, then fetch. *)
Definition locationEffect (service : Q -> Q -> nat * Response)
    (loc : UseLocation.Result) (st : ScreenState) : ScreenState :=
  match UseLocation.location loc with
  | Some l =>
      let initialZones := initialZones l in
      fetchZoneTemperatures service initialZones (setZones initialZones st)
  | None => st
  end.

(** One tick of the polling interval, which exists only while there is a
    location and at least one zone; it refreshes the current zones. *)
Definition pollTick (service : Q -> Q -> nat * Response)
    (loc : UseLocation.Result) (st : ScreenState) : ScreenState :=
  match UseLocation.location loc, zones st with
  | Some _, _ :: _ => fetchZoneTemperatures service (zones st) st
  | _, _ => st
  end.

(** Successive ticks, each with the service as it answers then.  (The
    logging interval of the component, which only resets the call counter
    between ticks, is not part of this.) *)
Definition pollTicks (services : list (Q -> Q -> nat * Response))
    (loc : UseLocation.Result) (st : ScreenState) : ScreenState :=
  fold_left (fun s service => pollTick service loc s) services st.

(** The text of a marker or overlay: a temperature followed by the
    degree sign and C, or a fixed caption. *)
Inductive MarkerLabel : Type :=
| Degrees (t : Q)
| Caption (s : string).

(** What the component returns. *)
Inductive View : Type :=
| ViewFetchingLocation
| ViewError (message : string)
| ViewMap (center : Coordinate)
          (polygons : list (string * list Coordinate * option Rgba))
          (markers : list (string * Coordinate * MarkerLabel)).

Definition markerLabel (zone : Zone) : MarkerLabel :=
  match temperature zone with
  | Some t => Degrees t
  | None => Caption "Loading..."
  end.

(** The [return]s of [DynamicGeofencing], in their order. *)
Definition render (loc : UseLocation.Result) (st : ScreenState) : View :=
  match UseLocation.location loc with
  | None => ViewFetchingLocation
  | Some l =>
      if truthy (UseLocation.errorMsg loc) then
        ViewError (orString (UseLocation.errorMsg loc) "")
      else if truthy (error st) then
        ViewError (orString (error st) "")
      else
        ViewMap (mkCoordinate (latitude l) (longitude l))
                (map (fun zone => (id zone, coordinates zone,
                                   getTemperatureColor (temperature zone)))
                     (zones st))
                (map (fun zone => (String.append "marker-" (id zone),
                                   computeCentroid (coordinates zone),
                                   markerLabel zone))
                     (zones st))
  end.

(* ------------------------------------------------------------------ *)
(** ** The weather hook *)

Module UseWeather.

(** The parts of the response the screens read; a property that is
    missing from the JSON is [None]. *)
Record Hourly : Type := mkHourly {
  temperature_2m : option (list Q);
  weathercode : option (list Q)
}.

Record WeatherData : Type := mkData {
  hourly : option Hourly
}.

Record State : Type := mkHook {
  data : option WeatherData;
  loading : bool;
  error : option string
}.

Definition initial : State := mkHook None true None.

(** The request of one run of the effect: [fetch] rejects, or a response
    arrives with its [ok] flag, its status and the outcome of [json()]. *)
Inductive Answer : Type :=
| FetchRejects (message : string)
| Responds (ok : bool) (status : nat) (json : Settled WeatherData).

(** [fetchWeather]: try / catch / finally. *)
Definition fetchWeather (a : Answer) (st : State) : State :=
  let st := mkHook (data st) true (error st) in
  let st :=
    match a with
    | FetchRejects m => mkHook (data st) (loading st) (Some m)
    | Responds false status _ =>
        mkHook (data st) (loading st)
               (Some (String.append "Network response was not ok ("
                        (String.append (string_of_nat status) ")")))
    | Responds true _ (Rejected m) => mkHook (data st) (loading st) (Some m)
    | Responds true _ (Fulfilled json) => mkHook (Some json) (loading st) (error st)
    end in
  mkHook (data st) false (error st).

(** The effect on [latitude, longitude]: nothing is fetched while either
    is undefined. *)
Definition effect (latitude longitude : option Q) (a : Answer) (st : State) : State :=
  match latitude, longitude with
  | Some _, Some _ => fetchWeather a st
  | _, _ => st
  end.

End UseWeather.

(* ------------------------------------------------------------------ *)
(** ** The forecast map *)

Module ForecastMap.

Definition inRange (lo hi code : Q) : bool :=
  Qle_bool lo code && Qle_bool code hi.

(** The API's weather code as a friendly description. *)
Definition getWeatherDescription (code : Q) : string :=
  if Qeq_bool code 0 then "Clear"
  else if Qeq_bool code 1 then "Mainly clear"
  else if Qeq_bool code 2 then "Partly cloudy"
  else if Qeq_bool code 3 then "Overcast"
  else if inRange 45 48 code then "Foggy"
  else if inRange 51 57 code then "Drizzle"
  else if inRange 61 67 code then "Rainy"
  else if inRange 71 77 code then "Snowy"
  else if inRange 80 82 code then "Rain showers"
  else if inRange 85 86 code then "Snow showers"
  else if inRange 95 99 code then "Thunderstorm"
  else "Unknown".

(** The four-bucket fill colour of the simulated zones. *)
Definition getTemperatureColor (temp : Q) : Rgba :=
  if Qlt_bool temp 10 then mkRgba 0 0 255 (3 # 10)        (* Blueish for cold *)
  else if Qlt_bool temp 20 then mkRgba 0 255 0 (3 # 10)   (* Greenish for mild *)
  else if Qlt_bool temp 30 then mkRgba 255 165 0 (3 # 10) (* Orange for warm *)
  else mkRgba 255 0 0 (3 # 10).                           (* Red for hot *)

(** [data?.hourly?.weathercode && data.hourly.weathercode[0] !== undefined
    ? data.hourly.weathercode[0] : undefined] *)
Definition currentWeatherCode (data : option UseWeather.WeatherData) : option Q :=
  match data with
  | Some d =>
      match UseWeather.hourly d with
      | Some h =>
          match UseWeather.weathercode h with
          | Some codes => nth_error codes 0
          | None => None
          end
      | None => None
      end
  | None => None
  end.

Definition currentWeatherCondition (data : option UseWeather.WeatherData) : string :=
  match currentWeatherCode data with
  | Some code => getWeatherDescription code
  | None => ""
  end.

(** The second line of the overlay box:
    [data && currentWeatherCondition ? currentWeatherCondition : '']. *)
Definition overlayCondition (data : option UseWeather.WeatherData) : string :=
  match data with
  | Some _ =>
      if truthy (Some (currentWeatherCondition data))
      then currentWeatherCondition data else ""
  | None => ""
  end.

(** [data?.hourly?.temperature_2m[0]]: the index is read without [?.], so
    a response with [hourly] but no [temperature_2m] throws: outer [None].
    The inner [None] is [undefined]. *)
Definition currentTemperature (data : option UseWeather.WeatherData)
  : option (option Q) :=
  match data with
  | Some d =>
      match UseWeather.hourly d with
      | Some h =>
          match UseWeather.temperature_2m h with
          | Some temps => Some (nth_error temps 0)
          | None => None
          end
      | None => Some None
      end
  | None => Some None
  end.

(** The first line of the overlay box. *)
Definition overlayTemperature (data : option UseWeather.WeatherData)
  : option MarkerLabel :=
  match currentTemperature data with
  | Some current =>
      Some match data, current with
           | Some _, Some t => Degrees t
           | _, _ => Caption "Loading..."
           end
  | None => None
  end.

End ForecastMap.

(* ------------------------------------------------------------------ *)
(** ** The home screen *)

Module HomeScreen.

Record Address : Type := mkAddress {
  city : option string;
  town : option string;
  village : option string;
  state : option string;
  country : option string
}.

Record NominatimSearchResult : Type := mkSearchResult {
  place_id : Z;
  display_name : string;
  lat : string;
  lon : string;
  address : Address
}.

Record CityData : Type := mkCity {
  cityId : string;
  cityName : string;
  cityState : string;
  cityCountry : string;
  cityLatitude : Q;
  cityLongitude : Q
}.

Record State : Type := mkHome {
  userCity : option CityData;
  cities : list CityData;
  isAddingCity : bool;
  newCityName : string;
  suggestions : list NominatimSearchResult
}.

(** [addr.city || addr.town || addr.village || 'Unknown City'] and its
    two companions. *)
Definition nameOf (addr : Address) : string :=
  orString (orOption (orOption (city addr) (town addr)) (village addr)) "Unknown City".
Definition stateOf (addr : Address) : string := orString (state addr) "Unknown State".
Definition countryOf (addr : Address) : string := orString (country addr) "Unknown Country".

(** The predicate of [results.filter]. *)
Definition hasFullAddress (result : NominatimSearchResult) : bool :=
  let addr := address result in
  truthy (orOption (orOption (city addr) (town addr)) (village addr))
  && truthy (state addr) && truthy (country addr).

(** [fetchSuggestions], run when the debounce timer fires: [geocode] is
    the settled outcome of the geocoding call for the current input. *)
Definition fetchSuggestions
    (geocode : string -> Settled (list NominatimSearchResult)) (st : State) : State :=
  let suggestions' :=
    if (2 <? String.length (newCityName st))%nat then
      match geocode (newCityName st) with
      | Fulfilled results => filter hasFullAddress results
      | Rejected _ => []
      end
    else [] in
  mkHome (userCity st) (cities st) (isAddingCity st) (newCityName st) suggestions'.

Section Select.

(** [parseFloat] of the host. *)
Variable parseFloat : string -> Q.

Definition cityOfSuggestion (suggestion : NominatimSearchResult) : CityData :=
  let addr := address suggestion in
  mkCity (string_of_Z (place_id suggestion))
         (nameOf addr) (stateOf addr) (countryOf addr)
         (parseFloat (lat suggestion)) (parseFloat (lon suggestion)).

(** [handleSelectSuggestion] *)
Definition handleSelectSuggestion
    (suggestion : NominatimSearchResult) (st : State) : State :=
  let newCity := cityOfSuggestion suggestion in
  let cities' :=
    match find (fun c => String.eqb (cityId c) (cityId newCity)) (cities st) with
    | Some _ => cities st
    | None => cities st ++ [newCity]
    end in
  mkHome (userCity st) cities' false "" [].

End Select.

(** [fetchUserCity]: the reverse geocoding of the device's location;
    a failure is logged and changes nothing. *)
Definition fetchUserCity (loc : UseLocation.Result)
    (reverseGeocode : Q -> Q -> Settled Address) (st : State) : State :=
  match UseLocation.location loc with
  | Some l =>
      match reverseGeocode (latitude l) (longitude l) with
      | Fulfilled addr =>
          mkHome (Some (mkCity "user" (nameOf addr) (stateOf addr) (countryOf addr)
                               (latitude l) (longitude l)))
                 (cities st) (isAddingCity st) (newCityName st) (suggestions st)
      | Rejected _ => st
      end
  | None => st
  end.

(** The line [`${city.city}, ${city.state}, ${city.country}`]. *)
Definition cityLine (c : CityData) : string :=
  String.append (cityName c)
    (String.append ", " (String.append (cityState c)
       (String.append ", " (cityCountry c)))).

(** The right-hand side of a [CityWeatherItem]. *)
Inductive ItemBody : Type :=
| Spinner
| ErrorText (message : string)
| TemperatureText (label : MarkerLabel).

(** [data?.hourly?.temperature_2m?.[0]] *)
Definition currentTemperature (data : option UseWeather.WeatherData) : option Q :=
  match data with
  | Some d =>
      match UseWeather.hourly d with
      | Some h =>
          match UseWeather.temperature_2m h with
          | Some temps => nth_error temps 0
          | None => None
          end
      | None => None
      end
  | None => None
  end.

Definition CityWeatherItem (weather : UseWeather.State) : ItemBody :=
  if UseWeather.loading weather then Spinner
  else if truthy (UseWeather.error weather) then
    ErrorText (orString (UseWeather.error weather) "")
  else
    TemperatureText
      match currentTemperature (UseWeather.data weather) with
      | Some t => if truthyNumber t then Degrees t else Caption "N/A"
      | None => Caption "N/A"
      end.

End HomeScreen.

(* ------------------------------------------------------------------ *)
(** ** The grid, the centroid and the gradient over IEEE 754 doubles

    Where rounding, NaN or [undefined] decide a property, the functions
    are embedded a second time with JavaScript's own numbers: binary64
    with signed zeros, infinities and one NaN, every operation rounded to
    nearest, ties to even. *)

Module Binary64.

Definition number : Type := spec_float.

Definition prec : Z := 53.
Definition emax : Z := 1024.

Definition NaN : number := S754_nan.

(** An integer as a double (exact up to 2^53). *)
Definition ofZ (z : Z) : number := binary_normalize prec emax z 0 false.

Definition add (x y : number) : number := SFadd prec emax x y.
Definition sub (x y : number) : number := SFsub prec emax x y.
Definition mul (x y : number) : number := SFmul prec emax x y.
Definition div (x y : number) : number := SFdiv prec emax x y.

(** [x <= y] and [x >= y]: false as soon as one side is NaN. *)
Definition le (x y : number) : bool := SFleb x y.
Definition ge (x y : number) : bool := SFleb y x.

(** The decimal literal [n / d], as [0.08] is [8 / 100]: the double
    nearest to it. *)
Definition decimal (n d : Z) : number := div (ofZ n) (ofZ d).


(** [Math.round]: the nearest integer, ties towards +infinity; NaN,
    infinities and zeros are returned as they are.  A finite [x] with a
    negative exponent [e] is [sm / 2^k] for [k = -e], and
    [floor (x + 1/2) = floor ((2 sm + 2^k) / 2^(k+1))]. *)
Definition Math_round (x : number) : number :=
  match x with
  | S754_finite s m e =>
      if (0 <=? e)%Z then x
      else
        let k := (- e)%Z in
        let sm := if s then Z.neg m else Z.pos m in
        binary_normalize prec emax ((2 * sm + 2 ^ k) / 2 ^ (k + 1))%Z 0 s
  | _ => x
  end.

(** A value of the field [temperature]: [null], a number, or the
    [undefined] that an empty [temperature_2m] array yields. *)
Inductive Temperature : Type :=
| Null
| Undefined
| Num (x : number).

(** The conversion that comparisons and arithmetic apply. *)
Definition toNumber (t : Temperature) : number :=
  match t with
  | Null => ofZ 0
  | Undefined => NaN
  | Num x => x
  end.

(** [json.hourly.temperature_2m[0]] *)
Definition firstTemperature (temperature_2m : list Temperature) : Temperature :=
  nth 0 temperature_2m Undefined.

Record Coordinate : Type := mkCoordinate {
  latitude : number;
  longitude : number
}.

Record Zone : Type := mkZone {
  id : string;
  coordinates : list Coordinate;
  temperature : Temperature
}.

Record GradientStop : Type := mkStop {
  temp : number;
  color : number * number * number
}.

Record Rgba : Type := mkRgba {
  red : number;
  green : number;
  blue : number;
  alpha : number
}.

Definition latStep : number := decimal 8 100.    (* 0.08 *)
Definition lonStep : number := decimal 10 100.   (* 0.10 *)

Definition zoneCorners (latStart lonStart : number) (row col : nat) : list Coordinate :=
  let latMin := add latStart (mul (ofZ (Z.of_nat row)) latStep) in
  let latMax := add latStart (mul (ofZ (Z.of_nat (row + 1))) latStep) in
  let lonMin := add lonStart (mul (ofZ (Z.of_nat col)) lonStep) in
  let lonMax := add lonStart (mul (ofZ (Z.of_nat (col + 1))) lonStep) in
  [ mkCoordinate latMin lonMin;
    mkCoordinate latMin lonMax;
    mkCoordinate latMax lonMax;
    mkCoordinate latMax lonMin ].

Definition generateZones (latStart lonStart : number) : list Zone :=
  let init : list Zone * nat := ([], 0%nat) in
  let final :=
    for_loop numberOfRows (fun st row =>
      for_loop numberOfColumns (fun st col =>
        let '(zones, zoneCount) := st in
        let zoneCount := (zoneCount + 1)%nat in
        let coordinates := zoneCorners latStart lonStart row col in
        (zones ++ [ mkZone (String.append "zone" (string_of_nat zoneCount))
                           coordinates
                           Null ],
         zoneCount)) st) init in
  fst final.

Definition computeCentroid (coordinates : list Coordinate) : Coordinate :=
  let total :=
    fold_left (fun acc cur =>
                 mkCoordinate (add (latitude acc) (latitude cur))
                              (add (longitude acc) (longitude cur)))
              coordinates (mkCoordinate (ofZ 0) (ofZ 0)) in
  mkCoordinate (div (latitude total) (ofZ (Z.of_nat (List.length coordinates))))
               (div (longitude total) (ofZ (Z.of_nat (List.length coordinates)))).

Definition stop (t : number) (r g b : Z) : GradientStop :=
  mkStop t (ofZ r, ofZ g, ofZ b).

Definition gradient : list GradientStop :=
  [ stop (ofZ (-10))        0 0 139;
    stop (decimal (-75) 10) 0 0 205;
    stop (ofZ (-5))         0 0 255;
    stop (decimal (-25) 10) 173 216 230;
    stop (ofZ 0)            240 248 255;
    stop (decimal 25 10)    255 255 224;
    stop (ofZ 5)            255 255 153;
    stop (decimal 75 10)    255 255 0;
    stop (ofZ 10)           255 255 0;
    stop (decimal 125 10)   204 204 0;
    stop (ofZ 15)           255 165 100;
    stop (decimal 175 10)   255 140 0;
    stop (ofZ 20)           255 120 0;
    stop (ofZ 25)           255 80 80;
    stop (ofZ 28)           255 0 0;
    stop (ofZ 32)           139 0 0;
    stop (ofZ 35)           100 0 0 ].

Definition defaultAlpha : number := decimal 5 10.

Definition rgbaFromColor (c : number * number * number) (a : number) : Rgba :=
  mkRgba (fst (fst c)) (snd (fst c)) (snd c) a.

(** ['rgba(128, 128, 128, 0.3)'] *)
Definition neutralGray : Rgba := mkRgba (ofZ 128) (ofZ 128) (ofZ 128) (decimal 3 10).

Definition mixChannel (s e factor : number) : number :=
  Math_round (add s (mul factor (sub e s))).

Definition interpolateBetween (start end_ : GradientStop) (x : number) : Rgba :=
  let factor := div (sub x (temp start)) (sub (temp end_) (temp start)) in
  let r := mixChannel (fst (fst (color start))) (fst (fst (color end_))) factor in
  let g := mixChannel (snd (fst (color start))) (snd (fst (color end_))) factor in
  let b := mixChannel (snd (color start)) (snd (color end_)) factor in
  rgbaFromColor (r, g, b) defaultAlpha.

Definition encloses (start end_ : GradientStop) (x : number) : bool :=
  ge x (temp start) && le x (temp end_).

(** The loop over the adjacent pairs; [None] is the loop running to its
    end. *)
Fixpoint interpolationLoop (x : number) (stops : list GradientStop) : option Rgba :=
  match stops with
  | start :: rest =>
      match rest with
      | end_ :: _ =>
          if encloses start end_ x then Some (interpolateBetween start end_ x)
          else interpolationLoop x rest
      | [] => None
      end
  | [] => None
  end.

(** [getTemperatureColor] over a table; [None] is the TypeError of
    reading [gradient[0].temp] on the empty table.  Only [null] passes
    the test [temp === null]. *)
Definition getTemperatureColorFrom
    (table : list GradientStop) (temperature : Temperature) : option Rgba :=
  match temperature with
  | Null => Some neutralGray
  | _ =>
      let x := toNumber temperature in
      match table with
      | [] => None
      | first :: _ =>
          if le x (temp first) then
            Some (rgbaFromColor (color first) defaultAlpha)
          else
            let last_ := last table first in
            if ge x (temp last_) then
              Some (rgbaFromColor (color last_) defaultAlpha)
            else
              match interpolationLoop x table with
              | Some c => Some c
              | None => Some neutralGray   (* Fallback *)
              end
      end
  end.

Definition getTemperatureColor (temperature : Temperature) : option Rgba :=
  getTemperatureColorFrom gradient temperature.

(** The fallback after the loop is reached: both clamp tests fail and the
    loop runs to its end. *)
Definition reachesFallback (table : list GradientStop) (x : number) : Prop :=
  exists first rest,
    table = first :: rest
    /\ le x (temp first) = false
    /\ ge x (temp (last table first)) = false
    /\ interpolationLoop x table = None.

(** The cell at position [k] of the row-major order. *)
Definition gridZone (latStart lonStart : number) (k : nat) : Zone :=
  mkZone (String.append "zone" (string_of_nat (k + 1)))
         (zoneCorners latStart lonStart (k / numberOfColumns) (k mod numberOfColumns))
         Null.



End Binary64.

(* ------------------------------------------------------------------ *)
(** ** Vocabulary of the properties *)

(** Strictly ascending temperatures along the table. *)
Fixpoint ascending (stops : list GradientStop) : Prop :=
  match stops with
  | start :: rest =>
      match rest with
      | end_ :: _ => temp start < temp end_ /\ ascending rest
      | [] => True
      end
  | [] => True
  end.

(** [start] and [end_] are the stops at the indices [i] and [i + 1]. *)
Definition adjacent (table : list GradientStop) (i : nat)
    (start end_ : GradientStop) : Prop :=
  nth_error table i = Some start /\ nth_error table (S i) = Some end_.


(** [x] lies between the channel values [s] and [e]. *)
Definition channelBetween (s e x : Z) : Prop :=
  (Z.min s e <= x <= Z.max s e)%Z.

(** From [x] to [y] the channel moves towards [e], away from [s]. *)
Definition channelToward (s e x y : Z) : Prop :=
  ((s <= e -> x <= y) /\ (e <= s -> y <= x))%Z.

Definition colorBetween (start end_ : GradientStop) (c : Rgba) : Prop :=
  channelBetween (color0 (color start)) (color0 (color end_)) (red c)
  /\ channelBetween (color1 (color start)) (color1 (color end_)) (green c)
  /\ channelBetween (color2 (color start)) (color2 (color end_)) (blue c).

Definition colorToward (start end_ : GradientStop) (c c' : Rgba) : Prop :=
  channelToward (color0 (color start)) (color0 (color end_)) (red c) (red c')
  /\ channelToward (color1 (color start)) (color1 (color end_)) (green c) (green c')
  /\ channelToward (color2 (color start)) (color2 (color end_)) (blue c) (blue c').

(** The cell at position [k] of the row-major order. *)
Definition gridZone (latStart lonStart : Q) (k : nat) : Zone :=
  mkZone (String.append "zone" (string_of_nat (k + 1)))
         (zoneCorners latStart lonStart (k / numberOfColumns) (k mod numberOfColumns))
         None.

(** Four corners in the winding order min/min, min/max, max/max, max/min
    of a rectangle that is not degenerate. *)
Definition windingRectangle (corners : list Coordinate) : Prop :=
  match corners with
  | [c0; c1; c2; c3] =>
      latitude c0 == latitude c1 /\ latitude c2 == latitude c3
      /\ longitude c0 == longitude c3 /\ longitude c1 == longitude c2
      /\ latitude c0 < latitude c2 /\ longitude c0 < longitude c1
  | _ => False
  end.

(** A service that answers every request with a failing HTTP status. *)
Definition failingService : Q -> Q -> nat * Response :=
  fun _ _ => (0%nat, HttpResponse false (Fulfilled 0)).

(** A channel value a CSS colour can carry. *)
Definition validChannel (x : Z) : Prop := (0 <= x <= 255)%Z.

Definition validColor (c : Color) : Prop :=
  validChannel (color0 c) /\ validChannel (color1 c) /\ validChannel (color2 c).

(** Later runs of the weather effect that all succeed, each with its
    status and its JSON. *)
Definition refetchSuccessfully (later : list (nat * UseWeather.WeatherData))
    (st : UseWeather.State) : UseWeather.State :=
  fold_left (fun s r => UseWeather.fetchWeather
                          (UseWeather.Responds true (fst r) (Fulfilled (snd r))) s)
            later st.

(** A search result with a full address, for the examples. *)
Definition parisResult : HomeScreen.NominatimSearchResult :=
  HomeScreen.mkSearchResult 88 "Paris, Ile-de-France, France" "48.85" "2.35"
    (HomeScreen.mkAddress (Some "Paris") None None (Some "Ile-de-France")
                          (Some "France"))%string.

(** The view is the map. *)
Definition showsMap (v : View) : Prop :=
  match v with
  | ViewMap _ _ _ => True
  | _ => False
  end.

(* ================================================================== *)
(** * Properties *)

(** ** Numbers: the tests and [Math.round] *)

Lemma Qlt_bool_iff (a b : Q) : Qlt_bool a b = true <-> a < b.
Proof.
  unfold Qlt_bool. rewrite negb_true_iff.
  split; intro H.
  - apply Qnot_le_lt. intro L. apply Qle_bool_iff in L. congruence.
  - apply not_true_is_false. intro L. apply Qle_bool_iff in L.
    apply (Qlt_not_le _ _ H L).
Qed.

Lemma Qle_bool_false (a b : Q) : Qle_bool a b = false <-> b < a.
Proof.
  rewrite <- Qlt_bool_iff. unfold Qlt_bool. apply iff_sym, negb_true_iff.
Qed.

Lemma Math_round_compat (x y : Q) : x == y -> Math_round x = Math_round y.
Proof.
  intro E. unfold Math_round. apply Qfloor_comp. rewrite E. reflexivity.
Qed.

Lemma Math_round_Z (z : Z) : Math_round (inject_Z z) = z.
Proof.
  unfold Math_round.
  assert (L : (z <= Qfloor (inject_Z z + (1 # 2)))%Z).
  { rewrite <- (Qfloor_Z z) at 1. apply Qfloor_resp_le. lra. }
  assert (U : (Qfloor (inject_Z z + (1 # 2)) < z + 1)%Z).
  { rewrite Zlt_Qlt, inject_Z_plus.
    pose proof (Qfloor_le (inject_Z z + (1 # 2))) as F.
    change (inject_Z 1) with 1. lra. }
  lia.
Qed.

Lemma Math_round_mono (x y : Q) : x <= y -> (Math_round x <= Math_round y)%Z.
Proof.
  intro L. unfold Math_round. apply Qfloor_resp_le. lra.
Qed.

(** ** The functions on a few inputs *)

Example Math_round_ties_up :
  Math_round (5 # 2) = 3%Z /\ Math_round (-5 # 2) = (-2)%Z
  /\ Math_round (24 # 10) = 2%Z /\ Math_round (-26 # 10) = (-3)%Z.
Proof. repeat split. Qed.

Example getTemperatureColor_at_1 :
  getTemperatureColor (Some 1) = Some (mkRgba 246 251 243 (5 # 10)).
Proof. reflexivity. Qed.

Example getTemperatureColor_at_stops :
  getTemperatureColor (Some (-10)) = Some (mkRgba 0 0 139 (5 # 10))
  /\ getTemperatureColor (Some 0) = Some (mkRgba 240 248 255 (5 # 10))
  /\ getTemperatureColor (Some 35) = Some (mkRgba 100 0 0 (5 # 10)).
Proof. repeat split. Qed.

Example SanJose_buckets :
  SanJose.getTemperatureColor (Some 4) = mkRgba 0 0 255 (3 # 10)
  /\ SanJose.getTemperatureColor (Some 5) = mkRgba 0 255 0 (3 # 10)
  /\ SanJose.getTemperatureColor (Some 12) = mkRgba 255 165 0 (3 # 10)
  /\ SanJose.getTemperatureColor (Some 13) = mkRgba 255 0 0 (3 # 10).
Proof. repeat split. Qed.

Example generateZones_second_row :
  nth_error (generateZones 0 0) 6
  = Some (mkZone "zone7" (zoneCorners 0 0 1 0) None).
Proof. reflexivity. Qed.

(** ** [getTemperatureColor] sees numbers, not representations *)

Lemma mixChannel_compat (s e : Z) (f f' : Q) :
  f == f' -> mixChannel s e f = mixChannel s e f'.
Proof.
  intro E. unfold mixChannel. apply Math_round_compat. rewrite E. reflexivity.
Qed.

Lemma interpolateBetween_compat (start end_ : GradientStop) (t t' : Q) :
  t == t' -> interpolateBetween start end_ t = interpolateBetween start end_ t'.
Proof.
  intro E. unfold interpolateBetween.
  assert (F : (t - temp start) / (temp end_ - temp start)
              == (t' - temp start) / (temp end_ - temp start))
    by (rewrite E; reflexivity).
  rewrite !(mixChannel_compat _ _ _ _ F). reflexivity.
Qed.

Lemma encloses_compat (start end_ : GradientStop) (t t' : Q) :
  t == t' -> encloses start end_ t = encloses start end_ t'.
Proof.
  intro E. unfold encloses. rewrite E. reflexivity.
Qed.

Lemma interpolationLoop_compat (t t' : Q) (stops : list GradientStop) :
  t == t' -> interpolationLoop t stops = interpolationLoop t' stops.
Proof.
  intro E. induction stops as [|start rest IH]; [reflexivity|].
  destruct rest as [|end_ rest']; [reflexivity|].
  cbn [interpolationLoop] in *.
  rewrite (encloses_compat _ _ _ _ E), (interpolateBetween_compat _ _ _ _ E), IH.
  reflexivity.
Qed.

Lemma getTemperatureColorFrom_compat (table : list GradientStop) (t t' : Q) :
  t == t' ->
  getTemperatureColorFrom table (Some t) = getTemperatureColorFrom table (Some t').
Proof.
  intro E. unfold getTemperatureColorFrom.
  destruct table as [|first rest]; [reflexivity|].
  rewrite (interpolationLoop_compat _ _ _ E).
  assert (A : Qle_bool t (temp first) = Qle_bool t' (temp first))
    by (rewrite E; reflexivity).
  assert (B : forall s, Qle_bool s t = Qle_bool s t')
    by (intro s; rewrite E; reflexivity).
  rewrite A, B. reflexivity.
Qed.

(** ** Tables with strictly ascending temperatures *)

Lemma gradient_ascending : ascending gradient.
Proof. cbn. repeat split. Qed.

Lemma ascending_tail (s : GradientStop) (rest : list GradientStop) :
  ascending (s :: rest) -> ascending rest.
Proof. destruct rest; cbn; tauto. Qed.

Lemma ascending_head_le (rest : list GradientStop) :
  forall (s x : GradientStop) (k : nat),
    ascending (s :: rest) -> nth_error (s :: rest) k = Some x ->
    temp s <= temp x /\ (temp x <= temp s -> k = 0%nat).
Proof.
  induction rest as [|e rest IH]; intros s x k A N.
  - destruct k as [|k]; cbn in N.
    + inversion N; subst. split; [lra | reflexivity].
    + destruct k; discriminate.
  - destruct k as [|k].
    + cbn in N. inversion N; subst. split; [lra | reflexivity].
    + destruct A as [L A]. change (nth_error (e :: rest) k = Some x) in N.
      destruct (IH e x k A N) as [Le _]. split; [lra | intro; lra].
Qed.

Lemma ascending_last_ge (rest : list GradientStop) :
  forall (s d : GradientStop), ascending (s :: rest) ->
    temp s <= temp (last (s :: rest) d).
Proof.
  induction rest as [|e rest IH]; intros s d A.
  - cbn. lra.
  - destruct A as [L A]. specialize (IH e d A).
    change (last (s :: e :: rest) d) with (last (e :: rest) d). lra.
Qed.

Lemma ascending_nth_le_last (table : list GradientStop) :
  forall (k : nat) (x d : GradientStop), ascending table ->
    nth_error table k = Some x -> temp x <= temp (last table d).
Proof.
  induction table as [|s rest IH]; intros k x d A N.
  - destruct k; discriminate.
  - destruct k as [|k].
    + cbn in N. inversion N; subst. apply ascending_last_ge, A.
    + change (nth_error rest k = Some x) in N.
      destruct rest as [|e rest]; [destruct k; discriminate|].
      change (last (s :: e :: rest) d) with (last (e :: rest) d).
      apply (IH k x d (ascending_tail _ _ A) N).
Qed.

(** ** The interpolation step at the two ends of its interval *)

Lemma mixChannel_0 (s e : Z) (f : Q) : f == 0 -> mixChannel s e f = s.
Proof.
  intro E. unfold mixChannel. transitivity (Math_round (inject_Z s)).
  - apply Math_round_compat. rewrite E. ring.
  - apply Math_round_Z.
Qed.

Lemma mixChannel_1 (s e : Z) (f : Q) : f == 1 -> mixChannel s e f = e.
Proof.
  intro E. unfold mixChannel. transitivity (Math_round (inject_Z e)).
  - apply Math_round_compat. rewrite E. ring.
  - apply Math_round_Z.
Qed.

Lemma interpolateBetween_start (start end_ : GradientStop) (t : Q) :
  t == temp start ->
  interpolateBetween start end_ t = rgbaFromColor (color start) defaultAlpha.
Proof.
  intro E. unfold interpolateBetween, rgbaFromColor.
  assert (F : (t - temp start) / (temp end_ - temp start) == 0).
  { rewrite E. unfold Qdiv. ring. }
  rewrite !(mixChannel_0 _ _ _ F). reflexivity.
Qed.

Lemma interpolateBetween_end (start end_ : GradientStop) (t : Q) :
  temp start < temp end_ -> t == temp end_ ->
  interpolateBetween start end_ t = rgbaFromColor (color end_) defaultAlpha.
Proof.
  intros L E. unfold interpolateBetween, rgbaFromColor.
  assert (F : (t - temp start) / (temp end_ - temp start) == 1).
  { rewrite E. field. lra. }
  rewrite !(mixChannel_1 _ _ _ F). reflexivity.
Qed.

Lemma encloses_iff (start end_ : GradientStop) (t : Q) :
  encloses start end_ t = true <-> temp start <= t /\ t <= temp end_.
Proof.
  unfold encloses. rewrite andb_true_iff, !Qle_bool_iff. reflexivity.
Qed.

(** ** The loop on an ascending table *)

Lemma interpolationLoop_cons2 (t : Q) (s e : GradientStop) (rest : list GradientStop) :
  interpolationLoop t (s :: e :: rest) =
  if encloses s e t then Some (interpolateBetween s e t)
  else interpolationLoop t (e :: rest).
Proof. reflexivity. Qed.

(** The loop returns from inside whenever the temperature lies from the
    first stop up to, but excluding, the last one. *)
Lemma interpolationLoop_returns (rest : list GradientStop) :
  forall (s d : GradientStop) (t : Q),
    temp s <= t -> t < temp (last (s :: rest) d) ->
    exists c, interpolationLoop t (s :: rest) = Some c.
Proof.
  induction rest as [|e rest IH]; intros s d t Lo Hi.
  - cbn in Hi. lra.
  - rewrite interpolationLoop_cons2.
    destruct (encloses s e t) eqn:En; [eauto|].
    apply (IH e d t).
    + destruct (Qlt_le_dec (temp e) t) as [G|G]; [lra|].
      assert (encloses s e t = true) by (apply encloses_iff; split; assumption).
      congruence.
    + exact Hi.
Qed.

(** Whichever adjacent pair encloses the temperature, the loop returns
    the interpolation between that pair. *)
Lemma interpolationLoop_adjacent (table : list GradientStop) :
  forall (i : nat) (start end_ : GradientStop) (t : Q),
    ascending table -> adjacent table i start end_ ->
    temp start <= t -> t <= temp end_ ->
    interpolationLoop t table = Some (interpolateBetween start end_ t).
Proof.
  induction table as [|s rest IH]; intros i start end_ t A [N0 N1] Lo Hi.
  - destruct i; discriminate.
  - destruct rest as [|e rest]; [destruct i; discriminate|].
    rewrite interpolationLoop_cons2.
    destruct i as [|i].
    + cbn in N0, N1. inversion N0; inversion N1; subst.
      assert (En : encloses start end_ t = true)
        by (apply encloses_iff; split; assumption).
      rewrite En. reflexivity.
    + change (nth_error (e :: rest) i = Some start) in N0.
      change (nth_error (e :: rest) (S i) = Some end_) in N1.
      destruct (encloses s e t) eqn:En.
      * apply encloses_iff in En. destruct En as [Lo' Hi'].
        destruct A as [L A].
        destruct (ascending_head_le rest e start i A N0) as [Le Z0].
        assert (i = 0%nat) by (apply Z0; lra). subst i.
        cbn in N0. inversion N0; subst start.
        assert (Et : t == temp e) by lra.
        rewrite (interpolateBetween_end s e t L Et).
        rewrite (interpolateBetween_start e end_ t Et). reflexivity.
      * apply (IH i start end_ t (ascending_tail _ _ A)); [split|..]; assumption.
Qed.

(** Strictly inside the table's range neither clamp fires. *)
Lemma getTemperatureColorFrom_inside (first : GradientStop)
    (rest : list GradientStop) (t : Q) :
  temp first < t -> t < temp (last (first :: rest) first) ->
  getTemperatureColorFrom (first :: rest) (Some t) =
  match interpolationLoop t (first :: rest) with
  | Some c => Some c
  | None => Some neutralGray
  end.
Proof.
  intros Lo Hi. unfold getTemperatureColorFrom.
  apply Qle_bool_false in Lo. apply Qle_bool_false in Hi.
  rewrite Lo, Hi. reflexivity.
Qed.

(** The interpolated colour for a temperature enclosed by an adjacent pair
    of an ascending table, strictly inside the table's range. *)
Lemma getTemperatureColorFrom_adjacent (first : GradientStop)
    (rest : list GradientStop) (i : nat) (start end_ : GradientStop) (t : Q) :
  ascending (first :: rest) ->
  temp first < t -> t < temp (last (first :: rest) first) ->
  adjacent (first :: rest) i start end_ ->
  temp start <= t -> t <= temp end_ ->
  getTemperatureColorFrom (first :: rest) (Some t) =
  Some (interpolateBetween start end_ t).
Proof.
  intros A Lo Hi Adj L H.
  rewrite (getTemperatureColorFrom_inside _ _ _ Lo Hi).
  rewrite (interpolationLoop_adjacent _ i start end_ t A Adj L H). reflexivity.
Qed.

(** An enclosing adjacent pair exists for every temperature within the
    table's range. *)
Lemma enclosing_pair_exists (rest : list GradientStop) :
  forall (s d : GradientStop) (t : Q),
    temp s <= t -> t <= temp (last (s :: rest) d) -> rest <> [] ->
    exists i start end_,
      adjacent (s :: rest) i start end_ /\ temp start <= t /\ t <= temp end_.
Proof.
  induction rest as [|e rest IH]; intros s d t Lo Hi NE; [congruence|].
  destruct (Qlt_le_dec (temp e) t) as [G|G].
  - destruct rest as [|e' rest].
    + cbn in Hi. lra.
    + destruct (IH e d t) as (i & start & end_ & [N0 N1] & L & H);
        [lra | exact Hi | discriminate |].
      exists (S i), start, end_. repeat split; assumption.
  - exists 0%nat, s, e. repeat split; assumption.
Qed.


Lemma ascending_adjacent (table : list GradientStop) :
  forall (i : nat) (s e : GradientStop),
    ascending table -> adjacent table i s e -> temp s < temp e.
Proof.
  induction table as [|x rest IH]; intros i s e A [N0 N1].
  - destruct i; discriminate.
  - destruct rest as [|y rest]; [destruct i; discriminate|].
    destruct A as [L A]. destruct i as [|i].
    + cbn in N0, N1. inversion N0; inversion N1; subst. exact L.
    + apply (IH i s e A). split; assumption.
Qed.

Lemma ascending_first_lt_last (first e d : GradientStop) (rest : list GradientStop) :
  ascending (first :: e :: rest) ->
  temp first < temp (last (first :: e :: rest) d).
Proof.
  intros [L A]. pose proof (ascending_last_ge rest e d A) as G.
  change (last (first :: e :: rest) d) with (last (e :: rest) d). lra.
Qed.

(** ** The two clamps *)

Lemma clamp_first (first : GradientStop) (rest : list GradientStop) (t : Q) :
  t <= temp first ->
  getTemperatureColorFrom (first :: rest) (Some t) =
  Some (rgbaFromColor (color first) defaultAlpha).
Proof.
  intro L. unfold getTemperatureColorFrom.
  apply Qle_bool_iff in L. rewrite L. reflexivity.
Qed.

Lemma clamp_last (first e : GradientStop) (rest : list GradientStop) (t : Q) :
  ascending (first :: e :: rest) ->
  temp (last (first :: e :: rest) first) <= t ->
  getTemperatureColorFrom (first :: e :: rest) (Some t) =
  Some (rgbaFromColor (color (last (first :: e :: rest) first)) defaultAlpha).
Proof.
  intros A L. unfold getTemperatureColorFrom.
  pose proof (ascending_first_lt_last first e first rest A) as F.
  assert (N : Qle_bool t (temp first) = false) by (apply Qle_bool_false; lra).
  apply Qle_bool_iff in L. rewrite N, L. reflexivity.
Qed.

(** The first and the last stop of the screen's table. *)
Lemma gradient_first (first : GradientStop) :
  nth_error gradient 0 = Some first -> first = mkStop (-10) (0, 0, 139)%Z.
Proof. cbn. congruence. Qed.

Lemma gradient_last (last_ d : GradientStop) :
  nth_error gradient (List.length gradient - 1) = Some last_ ->
  last_ = mkStop 35 (100, 0, 0)%Z /\ last gradient d = last_.
Proof. cbn. intro H. inversion H. split; reflexivity. Qed.

(* ================================================================== *)
(** * The colour interpolator *)

(** C8.  An absent temperature is drawn in the fixed neutral gray,
    rgba(128, 128, 128, 0.3): whatever the gradient table holds (the empty
    table included), for the screen's own table, and on the San Jose
    screen. *)
Theorem absent_temperature_is_neutral_gray :
  (forall table : list GradientStop,
     getTemperatureColorFrom table None = Some (mkRgba 128 128 128 (3 # 10)))
  /\ getTemperatureColor None = Some (mkRgba 128 128 128 (3 # 10))
  /\ SanJose.getTemperatureColor None = mkRgba 128 128 128 (3 # 10).
Proof. repeat split. Qed.

(** C4.  At or below the first stop's temperature the colour is the first
    stop's colour, at or above the last stop's temperature it is the last
    stop's colour, both with the fixed alpha 0.5: nothing is extrapolated
    outside the table's range. *)
Theorem clamped_outside_the_table :
  forall (t : Q) (first last_ : GradientStop),
    nth_error gradient 0 = Some first ->
    nth_error gradient (List.length gradient - 1) = Some last_ ->
    (t <= temp first ->
       getTemperatureColor (Some t) = Some (rgbaFromColor (color first) (5 # 10)))
    /\ (temp last_ <= t ->
       getTemperatureColor (Some t) = Some (rgbaFromColor (color last_) (5 # 10))).
Proof.
  intros t first last_ F L.
  apply gradient_first in F.
  destruct (gradient_last last_ first L) as [_ EL].
  unfold getTemperatureColor. split; intro H.
  - subst first. apply (clamp_first _ _ t H).
  - subst first. rewrite <- EL in H |- *.
    apply (clamp_last _ _ _ t gradient_ascending H).
Qed.

Lemma clamped_outside_the_table_witness :
  getTemperatureColor (Some (-20)) = Some (mkRgba 0 0 139 (5 # 10))
  /\ getTemperatureColor (Some 40) = Some (mkRgba 100 0 0 (5 # 10)).
Proof.
  split.
  - apply (proj1 (clamped_outside_the_table (-20) (mkStop (-10) (0, 0, 139)%Z)
                    (mkStop 35 (100, 0, 0)%Z) eq_refl eq_refl)).
    vm_compute. discriminate.
  - apply (proj2 (clamped_outside_the_table 40 (mkStop (-10) (0, 0, 139)%Z)
                    (mkStop 35 (100, 0, 0)%Z) eq_refl eq_refl)).
    vm_compute. discriminate.
Defined.

(** C5, as the specification has it, fails: the colour at 2.5 degrees is
    not RGB(247, 251, 204). *)
Lemma color_at_2_5_is_not_the_0_5_midpoint :
  exists c : Rgba,
    getTemperatureColor (Some (25 # 10)) = Some c
    /\ (red c, green c, blue c) <> (247, 251, 204)%Z.
Proof.
  exists (mkRgba 255 255 224 (5 # 10)). split; [reflexivity | discriminate].
Qed.

(** C5, amended.  The table has stops at 0 (RGB(240, 248, 255)), at 2.5
    (RGB(255, 255, 224)) and at 5 degrees (RGB(255, 255, 153)), in this
    order and next to each other; 2.5 degrees is itself a breakpoint, and
    the colour there is that stop's colour RGB(255, 255, 224) with alpha
    0.5.  Only on a table in which the stops at 0 and 5 are adjacent is
    2.5 degrees their midpoint, and that midpoint rounds (half up) to
    RGB(248, 252, 204). *)
Theorem color_at_2_5_is_the_stop_at_2_5 :
  forall t : Q, t == 25 # 10 ->
    nth_error gradient 4 = Some (mkStop 0 (240, 248, 255)%Z)
    /\ nth_error gradient 5 = Some (mkStop (25 # 10) (255, 255, 224)%Z)
    /\ nth_error gradient 6 = Some (mkStop 5 (255, 255, 153)%Z)
    /\ getTemperatureColor (Some t) = Some (mkRgba 255 255 224 (5 # 10))
    /\ getTemperatureColorFrom
         [mkStop 0 (240, 248, 255)%Z; mkStop 5 (255, 255, 153)%Z] (Some t)
       = Some (mkRgba 248 252 204 (5 # 10)).
Proof.
  intros t E. repeat split.
  - unfold getTemperatureColor.
    rewrite (getTemperatureColorFrom_compat _ _ _ E). reflexivity.
  - rewrite (getTemperatureColorFrom_compat _ _ _ E). reflexivity.
Qed.

Lemma color_at_2_5_is_the_stop_at_2_5_witness :
  getTemperatureColor (Some (5 # 2)) = Some (mkRgba 255 255 224 (5 # 10)).
Proof.
  apply (color_at_2_5_is_the_stop_at_2_5 (5 # 2)). reflexivity.
Defined.

(** C9.  The four-bucket function of the San Jose screen and the
    gradient-table function are not extensionally equal: at 20 degrees
    the former answers red, rgba(255, 0, 0, 0.3), the latter dark orange,
    rgba(255, 120, 0, 0.5); they differ already in the RGB channels. *)
Theorem gradient_and_buckets_disagree :
  exists (t : Q) (c : Rgba),
    getTemperatureColor (Some t) = Some c
    /\ c <> SanJose.getTemperatureColor (Some t)
    /\ (red c, green c, blue c)
       <> (red (SanJose.getTemperatureColor (Some t)),
           green (SanJose.getTemperatureColor (Some t)),
           blue (SanJose.getTemperatureColor (Some t))).
Proof.
  exists 20, (mkRgba 255 120 0 (5 # 10)).
  split; [reflexivity | split; discriminate].
Qed.

(** ** Interpolation strictly inside the table's range *)


Lemma getTemperatureColorFrom_strictly_between (first : GradientStop)
    (rest : list GradientStop) (i : nat) (start end_ : GradientStop) (t : Q) :
  ascending (first :: rest) -> adjacent (first :: rest) i start end_ ->
  temp start < t -> t < temp end_ ->
  getTemperatureColorFrom (first :: rest) (Some t) =
  Some (interpolateBetween start end_ t).
Proof.
  intros A Adj Lo Hi.
  destruct (ascending_head_le rest first start i A (proj1 Adj)) as [F _].
  pose proof (ascending_nth_le_last _ (S i) end_ first A (proj2 Adj)) as L.
  apply (getTemperatureColorFrom_adjacent first rest i start end_ t A); try lra.
  exact Adj.
Qed.





(** ** Convexity and monotonicity of one interpolation step *)

Lemma inject_Z_le (a b : Z) : (a <= b)%Z -> inject_Z a <= inject_Z b.
Proof. intro L. rewrite <- Zle_Qle. exact L. Qed.

Lemma factor_bounds (ts te t : Q) :
  ts < te -> ts <= t -> t <= te -> 0 <= (t - ts) / (te - ts) <= 1.
Proof.
  intros L Lo Hi. split.
  - apply Qle_shift_div_l; lra.
  - apply Qle_shift_div_r; lra.
Qed.

Lemma factor_mono (ts te t u : Q) :
  ts < te -> t <= u -> (t - ts) / (te - ts) <= (u - ts) / (te - ts).
Proof.
  intros L Le. unfold Qdiv. apply Qmult_le_compat_r; [lra|].
  apply Qlt_le_weak, Qinv_lt_0_compat. lra.
Qed.

Lemma mixChannel_between (s e : Z) (f : Q) :
  0 <= f <= 1 -> channelBetween s e (mixChannel s e f).
Proof.
  intros [F0 F1]. unfold channelBetween, mixChannel.
  set (x := inject_Z s + f * (inject_Z e - inject_Z s)).
  destruct (Z.le_ge_cases s e) as [Le|Le].
  - rewrite Z.min_l, Z.max_r by assumption.
    pose proof (inject_Z_le _ _ Le) as LQ.
    assert (B : inject_Z s <= x /\ x <= inject_Z e) by (unfold x; split; nra).
    pose proof (Math_round_mono _ _ (proj1 B)) as M1.
    pose proof (Math_round_mono _ _ (proj2 B)) as M2.
    rewrite Math_round_Z in M1, M2. split; assumption.
  - rewrite Z.min_r, Z.max_l by assumption.
    pose proof (inject_Z_le _ _ Le) as LQ.
    assert (B : inject_Z e <= x /\ x <= inject_Z s) by (unfold x; split; nra).
    pose proof (Math_round_mono _ _ (proj1 B)) as M1.
    pose proof (Math_round_mono _ _ (proj2 B)) as M2.
    rewrite Math_round_Z in M1, M2. split; assumption.
Qed.

Lemma mixChannel_toward (s e : Z) (f f' : Q) :
  f <= f' -> channelToward s e (mixChannel s e f) (mixChannel s e f').
Proof.
  intro Le. unfold channelToward, mixChannel.
  split; intro L; apply Math_round_mono;
    pose proof (inject_Z_le _ _ L) as LQ; nra.
Qed.

Lemma interpolateBetween_between (start end_ : GradientStop) (t : Q) :
  temp start < temp end_ -> temp start <= t -> t <= temp end_ ->
  colorBetween start end_ (interpolateBetween start end_ t).
Proof.
  intros L Lo Hi. pose proof (factor_bounds _ _ _ L Lo Hi) as F.
  unfold colorBetween, interpolateBetween, rgbaFromColor, color0, color1, color2.
  cbn [red green blue fst snd].
  split; [|split]; apply mixChannel_between; exact F.
Qed.

Lemma interpolateBetween_toward (start end_ : GradientStop) (t u : Q) :
  temp start < temp end_ -> t <= u ->
  colorToward start end_ (interpolateBetween start end_ t)
                         (interpolateBetween start end_ u).
Proof.
  intros L Le. pose proof (factor_mono _ _ _ _ L Le) as F.
  unfold colorToward, interpolateBetween, rgbaFromColor, color0, color1, color2.
  cbn [red green blue fst snd].
  split; [|split]; apply mixChannel_toward; exact F.
Qed.

(** C6.  Let [start], [end_] be adjacent stops of the screen's table and
    [t <= u] two temperatures strictly between them.  Each channel of the
    colour at [t], and of the colour at [u], lies between the two stops'
    values of that channel, and from [t] to [u] no channel moves away from
    the end stop's value: it does not decrease where the end stop's value
    is the larger one and does not increase where it is the smaller one. *)
Theorem interpolation_is_convex_and_monotonic :
  forall (i : nat) (start end_ : GradientStop) (t u : Q),
    adjacent gradient i start end_ ->
    temp start < t -> t <= u -> u < temp end_ ->
    exists ct cu : Rgba,
      getTemperatureColor (Some t) = Some ct
      /\ getTemperatureColor (Some u) = Some cu
      /\ colorBetween start end_ ct
      /\ colorBetween start end_ cu
      /\ colorToward start end_ ct cu.
Proof.
  intros i start end_ t u Adj Lo Le Hi.
  pose proof gradient_ascending as A.
  pose proof (ascending_adjacent _ _ _ _ A Adj) as L.
  exists (interpolateBetween start end_ t), (interpolateBetween start end_ u).
  unfold getTemperatureColor.
  split; [|split; [|split; [|split]]].
  - apply (getTemperatureColorFrom_strictly_between _ _ i start end_ t A Adj); lra.
  - apply (getTemperatureColorFrom_strictly_between _ _ i start end_ u A Adj); lra.
  - apply interpolateBetween_between; lra.
  - apply interpolateBetween_between; lra.
  - apply interpolateBetween_toward; lra.
Qed.

Lemma interpolation_is_convex_and_monotonic_witness :
  exists ct cu : Rgba,
    getTemperatureColor (Some 13) = Some ct
    /\ getTemperatureColor (Some 14) = Some cu
    /\ colorBetween (mkStop (125 # 10) (204, 204, 0)%Z)
                    (mkStop 15 (255, 165, 100)%Z) ct
    /\ colorBetween (mkStop (125 # 10) (204, 204, 0)%Z)
                    (mkStop 15 (255, 165, 100)%Z) cu
    /\ colorToward (mkStop (125 # 10) (204, 204, 0)%Z)
                   (mkStop 15 (255, 165, 100)%Z) ct cu.
Proof.
  apply (interpolation_is_convex_and_monotonic 9
           (mkStop (125 # 10) (204, 204, 0)%Z) (mkStop 15 (255, 165, 100)%Z) 13 14).
  - split; reflexivity.
  - reflexivity.
  - discriminate.
  - reflexivity.
Defined.

(* ================================================================== *)
(** * The zone grid *)

Lemma generateZones_rowMajor (latStart lonStart : Q) :
  generateZones latStart lonStart =
  map (gridZone latStart lonStart) (seq 0 (numberOfRows * numberOfColumns)).
Proof. reflexivity. Qed.

Lemma Qnat_succ (n : nat) : Qnat (n + 1) == Qnat n + 1.
Proof.
  unfold Qnat. rewrite Nat2Z.inj_add, inject_Z_plus. reflexivity.
Qed.

Lemma zoneCorners_winding (latStart lonStart : Q) (row col : nat) :
  windingRectangle (zoneCorners latStart lonStart row col).
Proof.
  unfold windingRectangle, zoneCorners. cbn [latitude longitude].
  pose proof (Qnat_succ row) as R. pose proof (Qnat_succ col) as C.
  unfold latStep, lonStep.
  repeat apply conj; try reflexivity; rewrite ?R, ?C; lra.
Qed.

Lemma generateZones_In (latStart lonStart : Q) (z : Zone) :
  In z (generateZones latStart lonStart) ->
  exists k, (k < numberOfRows * numberOfColumns)%nat /\ z = gridZone latStart lonStart k.
Proof.
  rewrite generateZones_rowMajor, in_map_iff.
  intros (k & E & I). apply in_seq in I. exists k. split; [lia | congruence].
Qed.

(** C3.  From any origin, [generateZones] (8 rows, 6 columns, steps 0.08
    and 0.10) yields exactly 48 zones; their identifiers are zone1 ..
    zone48 in sequence, and their corners follow the row-major order (rows
    outside, columns inside); every zone is a list of four corners in the
    winding order min-lat/min-lon, min-lat/max-lon, max-lat/max-lon,
    max-lat/min-lon; every zone starts without a temperature; and the
    first corner of zone1 is the origin. *)
Theorem generateZones_grid :
  forall lat0 lon0 : Q,
    List.length (generateZones lat0 lon0) = 48%nat
    /\ map id (generateZones lat0 lon0)
       = map (fun n => String.append "zone" (string_of_nat n)) (seq 1 48)
    /\ hd_error (map id (generateZones lat0 lon0)) = Some "zone1"%string
    /\ nth_error (map id (generateZones lat0 lon0)) 47 = Some "zone48"%string
    /\ map coordinates (generateZones lat0 lon0)
       = flat_map (fun row => map (fun col => zoneCorners lat0 lon0 row col) (seq 0 6))
                  (seq 0 8)
    /\ Forall (fun z => windingRectangle (coordinates z)) (generateZones lat0 lon0)
    /\ Forall (fun z => temperature z = None) (generateZones lat0 lon0)
    /\ exists (zone1 : Zone) (others : list Zone) (c0 c1 c2 c3 : Coordinate),
         generateZones lat0 lon0 = zone1 :: others
         /\ id zone1 = "zone1"%string
         /\ coordinates zone1 = [c0; c1; c2; c3]
         /\ coord_eq c0 (mkCoordinate lat0 lon0).
Proof.
  intros lat0 lon0.
  split; [reflexivity|]. split; [reflexivity|]. split; [reflexivity|].
  split; [reflexivity|]. split; [reflexivity|].
  split; [|split].
  - apply Forall_forall. intros z I.
    destruct (generateZones_In _ _ _ I) as (k & _ & ->).
    apply zoneCorners_winding.
  - apply Forall_forall. intros z I.
    destruct (generateZones_In _ _ _ I) as (k & _ & ->). reflexivity.
  - rewrite generateZones_rowMajor. cbn [numberOfRows numberOfColumns Nat.mul Nat.add seq map].
    eexists _, _, _, _, _, _. split; [reflexivity|].
    split; [reflexivity|]. split; [reflexivity|].
    unfold coord_eq. cbn [latitude longitude].
    change (Qnat (0 / numberOfColumns)) with 0.
    change (Qnat (0 mod numberOfColumns)) with 0. split; ring.
Qed.

(* ================================================================== *)
(** * The centroid *)

Lemma computeCentroid_four (c0 c1 c2 c3 : Coordinate) :
  latitude (computeCentroid [c0; c1; c2; c3])
    == (latitude c0 + latitude c1 + latitude c2 + latitude c3) / 4
  /\ longitude (computeCentroid [c0; c1; c2; c3])
    == (longitude c0 + longitude c1 + longitude c2 + longitude c3) / 4.
Proof.
  unfold computeCentroid. cbn [fold_left List.length latitude longitude].
  change (Qnat 4) with 4. split; field.
Qed.


(* ================================================================== *)
(** * The refresh cycle *)

(** The rejection [Promise.all] reports is one of the rejections. *)
Lemma firstRejection_sound {A : Type} (ps : list (Promise A)) :
  forall (at_ : nat) (m : string),
    firstRejection ps = Some (at_, m) -> In (at_, Rejected m) ps.
Proof.
  induction ps as [|[a [v|m0]] ps IH]; intros at_ m F.
  - discriminate F.
  - right. apply IH, F.
  - cbn [firstRejection] in F.
    destruct (firstRejection ps) as [[a1 m1]|].
    + destruct (a1 <? a)%nat.
      * right. apply IH. exact F.
      * left. congruence.
    + left. congruence.
Qed.

(** One rejection is enough for [Promise.all] to see a rejection. *)
Lemma firstRejection_complete {A : Type} (ps : list (Promise A)) :
  forall (at_ : nat) (m : string),
    In (at_, Rejected m) ps -> firstRejection ps <> None.
Proof.
  induction ps as [|[a [v|m0]] ps IH]; intros at_ m I.
  - destruct I.
  - destruct I as [E|I]; [discriminate E|]. apply (IH _ _ I).
  - cbn [firstRejection].
    destruct (firstRejection ps) as [[a1 m1]|]; [destruct (a1 <? a)%nat|];
      discriminate.
Qed.

Lemma Promise_all_rejects {A : Type} (ps : list (Promise A)) (at_ : nat) (m : string) :
  In (at_, Rejected m) ps ->
  exists at' m', Promise_all ps = Rejected m' /\ In (at', Rejected m') ps.
Proof.
  intro I. unfold Promise_all.
  destruct (firstRejection ps) as [[a1 m1]|] eqn:F.
  - exists a1, m1. split; [reflexivity | apply firstRejection_sound, F].
  - exfalso. apply (firstRejection_complete ps at_ m I F).
Qed.

Lemma Promise_all_fulfils {A : Type} (ps : list (Promise A)) :
  Forall (fun p => exists v, snd p = Fulfilled v) ps ->
  Promise_all ps = Fulfilled (fulfilledValues ps)
  /\ List.length (fulfilledValues ps) = List.length ps.
Proof.
  intro H. unfold Promise_all.
  assert (N : firstRejection ps = None
              /\ List.length (fulfilledValues ps) = List.length ps).
  { induction H as [|[a [v|m]] ps [w E] _ [IH1 IH2]].
    - split; reflexivity.
    - cbn. split; [exact IH1 | f_equal; exact IH2].
    - discriminate E. }
  destruct N as [N1 N2]. rewrite N1. split; [reflexivity | exact N2].
Qed.

Lemma messageOr_not_empty (message fallback : string) :
  fallback <> EmptyString -> messageOr message fallback <> EmptyString.
Proof. destruct message; cbn; [tauto | discriminate]. Qed.

Lemma incrementCallCount_many {X : Type} (l : list X) (st : ScreenState) :
  let st' := fold_left (fun s _ => incrementCallCount s) l st in
  zones st' = zones st /\ loading st' = loading st /\ error st' = error st
  /\ apiCallCount st' = (apiCallCount st + List.length l)%nat.
Proof.
  revert st. induction l as [|x l IH]; intro st; cbn.
  - repeat split. lia.
  - destruct (IH (incrementCallCount st)) as (Z & L & E & C).
    cbn in *. rewrite Z, L, E, C. repeat split. lia.
Qed.

Lemma updateZone_rejected_In (service : Q -> Q -> nat * Response)
    (zone : Zone) (zonesToUpdate : list Zone) :
  In zone zonesToUpdate -> fetchFails service zone ->
  exists at_ m, In (at_, Rejected m) (map (updateZone service) zonesToUpdate).
Proof.
  intros I [m F].
  exists (fst (updateZone service zone)), m.
  apply in_map_iff. exists zone. split; [|exact I].
  destruct (updateZone service zone) as [a r]. cbn in *. congruence.
Qed.

(** C1.  A refresh cycle in which the fetch of at least one zone fails
    publishes nothing: the zone sequence of the screen, and with it every
    zone's temperature, is what it was before the cycle, whatever zones
    the cycle was asked to update; an error message, never empty, is set;
    and the loading flag is cleared. *)
Theorem failed_refresh_keeps_zones :
  forall (service : Q -> Q -> nat * Response)
         (zonesToUpdate : list Zone) (st : ScreenState),
    (exists zone, In zone zonesToUpdate /\ fetchFails service zone) ->
    zones (fetchZoneTemperatures service zonesToUpdate st) = zones st
    /\ map temperature (zones (fetchZoneTemperatures service zonesToUpdate st))
       = map temperature (zones st)
    /\ (exists message : string,
          error (fetchZoneTemperatures service zonesToUpdate st) = Some message
          /\ message <> EmptyString)
    /\ loading (fetchZoneTemperatures service zonesToUpdate st) = false.
Proof.
  intros service zonesToUpdate st (zone & I & F).
  destruct (updateZone_rejected_In service zone zonesToUpdate I F) as (a & m & R).
  destruct (Promise_all_rejects _ a m R) as (a' & m' & P & _).
  destruct (incrementCallCount_many zonesToUpdate st) as (Z & _ & _ & _).
  assert (E : zones (fetchZoneTemperatures service zonesToUpdate st) = zones st).
  { unfold fetchZoneTemperatures. rewrite P. cbn. exact Z. }
  split; [exact E|]. split; [rewrite E; reflexivity|]. split.
  - exists (messageOr m' "Error fetching temperatures"). split.
    + unfold fetchZoneTemperatures. rewrite P. reflexivity.
    + apply messageOr_not_empty. discriminate.
  - reflexivity.
Qed.

(** The other branch of the cycle, for comparison: when every fetch
    succeeds, the zones asked for are published with their new
    temperatures and the error state is left alone. *)
Lemma successful_refresh_publishes (service : Q -> Q -> nat * Response)
    (zonesToUpdate : list Zone) (st : ScreenState) :
  Forall (fun zone => exists v, snd (updateZone service zone) = Fulfilled v)
         zonesToUpdate ->
  zones (fetchZoneTemperatures service zonesToUpdate st)
    = fulfilledValues (map (updateZone service) zonesToUpdate)
  /\ List.length (zones (fetchZoneTemperatures service zonesToUpdate st))
     = List.length zonesToUpdate
  /\ error (fetchZoneTemperatures service zonesToUpdate st) = error st.
Proof.
  intro H.
  assert (H' : Forall (fun p => exists v, snd p = Fulfilled v)
                      (map (updateZone service) zonesToUpdate)).
  { apply Forall_forall. intros p Ip. apply in_map_iff in Ip.
    destruct Ip as (z & <- & Iz). rewrite Forall_forall in H. apply (H z Iz). }
  destruct (Promise_all_fulfils _ H') as [P Len].
  destruct (incrementCallCount_many zonesToUpdate st) as (_ & _ & E & _).
  unfold fetchZoneTemperatures. rewrite P. cbn.
  split; [reflexivity|]. split; [rewrite Len; apply length_map | exact E].
Qed.

Lemma failed_refresh_keeps_zones_witness :
  zones (fetchZoneTemperatures failingService (generateZones 1 2)
           (mkState (generateZones 1 2) true None 0))
  = generateZones 1 2.
Proof.
  apply (failed_refresh_keeps_zones failingService (generateZones 1 2)
           (mkState (generateZones 1 2) true None 0)).
  exists (gridZone 1 2 0). split.
  - left. reflexivity.
  - exists "Failed to fetch temperature"%string. reflexivity.
Defined.

(* ================================================================== *)
(** * Further properties of the colour functions *)

Lemma gradient_colors_valid : Forall (fun stop => validColor (color stop)) gradient.
Proof.
  unfold gradient.
  repeat (apply Forall_cons; [repeat split; discriminate|]). apply Forall_nil.
Qed.

Lemma gradient_stop_valid (k : nat) (stop : GradientStop) :
  nth_error gradient k = Some stop -> validColor (color stop).
Proof.
  intro N. apply nth_error_In in N.
  exact (proj1 (Forall_forall _ _) gradient_colors_valid stop N).
Qed.

Lemma channelBetween_valid (s e x : Z) :
  validChannel s -> validChannel e -> channelBetween s e x -> validChannel x.
Proof. unfold validChannel, channelBetween. lia. Qed.

Lemma gradient_enclosing_pair (t : Q) :
  -10 <= t -> t <= 35 ->
  exists (i : nat) (start end_ : GradientStop),
    adjacent gradient i start end_ /\ temp start <= t /\ t <= temp end_.
Proof.
  intros Lo Hi.
  apply (enclosing_pair_exists _ _ (mkStop (-10) (0, 0, 139)%Z) t);
    [exact Lo | exact Hi | discriminate].
Qed.

Lemma ascending_last_unique (table : list GradientStop) :
  forall (k : nat) (x d : GradientStop),
    ascending table -> nth_error table k = Some x ->
    temp (last table d) <= temp x -> x = last table d.
Proof.
  induction table as [|s rest IH]; intros k x d A N L.
  - destruct k; discriminate.
  - destruct rest as [|e rest].
    + destruct k as [|k]; [cbn in N |- *; congruence | destruct k; discriminate].
    + change (last (s :: e :: rest) d) with (last (e :: rest) d) in *.
      destruct k as [|k].
      * cbn in N. inversion N; subst x. destruct A as [Lt A].
        pose proof (ascending_last_ge rest e d A) as G. lra.
      * apply (IH k x d (ascending_tail _ _ A) N L).
Qed.

Lemma mixChannel_same (s : Z) (f : Q) : mixChannel s s f = s.
Proof.
  unfold mixChannel. transitivity (Math_round (inject_Z s)).
  - apply Math_round_compat. ring.
  - apply Math_round_Z.
Qed.

(** With the ends of the table included: whichever adjacent pair of an
    ascending table encloses the temperature, the colour is the
    interpolation between that pair. *)
Lemma getTemperatureColorFrom_enclosed (first : GradientStop)
    (rest : list GradientStop) (i : nat) (start end_ : GradientStop) (t : Q) :
  ascending (first :: rest) -> adjacent (first :: rest) i start end_ ->
  temp start <= t -> t <= temp end_ ->
  getTemperatureColorFrom (first :: rest) (Some t) =
  Some (interpolateBetween start end_ t).
Proof.
  intros A Adj Lo Hi.
  pose proof (ascending_adjacent _ _ _ _ A Adj) as L.
  destruct (Qlt_le_dec (temp first) t) as [F|F].
  - destruct (Qlt_le_dec t (temp (last (first :: rest) first))) as [G|G].
    + apply (getTemperatureColorFrom_adjacent first rest i start end_ t A F G Adj Lo Hi).
    + pose proof (ascending_nth_le_last _ (S i) end_ first A (proj2 Adj)) as M.
      assert (EL : end_ = last (first :: rest) first).
      { apply (ascending_last_unique _ (S i) end_ first A (proj2 Adj)). lra. }
      assert (Et : t == temp end_) by lra.
      rewrite (interpolateBetween_end start end_ t L Et).
      unfold getTemperatureColorFrom.
      assert (T1 : Qle_bool t (temp first) = false) by (apply Qle_bool_false, F).
      assert (T2 : Qle_bool (temp (last (first :: rest) first)) t = true)
        by (apply Qle_bool_iff, G).
      rewrite T1, T2, <- EL. reflexivity.
  - destruct (ascending_head_le rest first start i A (proj1 Adj)) as [Le Z0].
    assert (i = 0%nat) by (apply Z0; lra). subst i.
    destruct Adj as [N _]. cbn in N. inversion N; subst start.
    assert (Et : t == temp first) by lra.
    rewrite (interpolateBetween_start first end_ t Et).
    apply clamp_first, F.
Qed.

Lemma getTemperatureColor_enclosed (i : nat) (start end_ : GradientStop) (t : Q) :
  adjacent gradient i start end_ -> temp start <= t -> t <= temp end_ ->
  getTemperatureColor (Some t) = Some (interpolateBetween start end_ t).
Proof.
  intros Adj Lo Hi.
  exact (getTemperatureColorFrom_enclosed _ _ i start end_ t
           gradient_ascending Adj Lo Hi).
Qed.

(** The shape of every colour the gradient function returns for a known
    temperature. *)
Lemma getTemperatureColor_known (t : Q) :
  exists c : Rgba,
    getTemperatureColor (Some t) = Some c
    /\ validChannel (red c) /\ validChannel (green c) /\ validChannel (blue c)
    /\ alpha c = 5 # 10.
Proof.
  pose proof gradient_ascending as A.
  unfold getTemperatureColor.
  destruct (Qlt_le_dec (-10) t) as [Lo|Lo].
  - destruct (Qlt_le_dec t 35) as [Hi|Hi].
    + destruct (gradient_enclosing_pair t) as (i & start & end_ & Adj & L1 & L2);
        [apply Qlt_le_weak, Lo | apply Qlt_le_weak, Hi |].
      exists (interpolateBetween start end_ t). split.
      * apply (getTemperatureColorFrom_adjacent _ _ i start end_ t A Lo Hi Adj L1 L2).
      * pose proof (ascending_adjacent _ _ _ _ A Adj) as L.
        destruct (interpolateBetween_between start end_ t L L1 L2) as (B0 & B1 & B2).
        destruct (gradient_stop_valid _ _ (proj1 Adj)) as (S0 & S1 & S2).
        destruct (gradient_stop_valid _ _ (proj2 Adj)) as (E0 & E1 & E2).
        split; [exact (channelBetween_valid _ _ _ S0 E0 B0)|].
        split; [exact (channelBetween_valid _ _ _ S1 E1 B1)|].
        split; [exact (channelBetween_valid _ _ _ S2 E2 B2) | reflexivity].
    + exists (mkRgba 100 0 0 (5 # 10)). split.
      * apply (clamp_last _ _ _ t A Hi).
      * repeat split; discriminate.
  - exists (mkRgba 0 0 139 (5 # 10)). split.
    + apply clamp_first. exact Lo.
    + repeat split; discriminate.
Qed.

Lemma SanJose_alpha (temperature : option Q) :
  alpha (SanJose.getTemperatureColor temperature) = 3 # 10.
Proof.
  destruct temperature as [t|]; [|reflexivity]. cbn.
  destruct (Qlt_bool t 5); [reflexivity|].
  destruct (Qlt_bool t 12); [reflexivity|].
  destruct (Qlt_bool t 13); reflexivity.
Qed.

(** X3.  Plateaus.  Between two adjacent stops of the table that carry
    the same colour (as the stops at 7.5 and 10 degrees do), ends
    included, the colour is that colour for every temperature. *)
Theorem constant_between_equal_stops :
  forall (i : nat) (start end_ : GradientStop) (t : Q),
    adjacent gradient i start end_ ->
    color start = color end_ ->
    temp start <= t -> t <= temp end_ ->
    getTemperatureColor (Some t) = Some (rgbaFromColor (color start) (5 # 10)).
Proof.
  intros i start end_ t Adj C Lo Hi.
  rewrite (getTemperatureColor_enclosed i start end_ t Adj Lo Hi).
  unfold interpolateBetween. rewrite <- C, !mixChannel_same. reflexivity.
Qed.

Lemma constant_between_equal_stops_witness :
  getTemperatureColor (Some 8) = Some (mkRgba 255 255 0 (5 # 10)).
Proof.
  apply (constant_between_equal_stops 7
           (mkStop (75 # 10) (255, 255, 0)%Z) (mkStop 10 (255, 255, 0)%Z) 8).
  - split; reflexivity.
  - reflexivity.
  - discriminate.
  - discriminate.
Defined.

Lemma Qlt_bool_false (a b : Q) : Qlt_bool a b = false <-> b <= a.
Proof.
  unfold Qlt_bool. rewrite negb_false_iff. apply Qle_bool_iff.
Qed.

(** X4.  The gradient function and the San Jose function agree on the
    absent temperature and on nothing else: for every known temperature
    their colours differ (at least in alpha, 0.5 against 0.3). *)
Theorem gradient_and_buckets_agree_only_on_absent :
  forall temperature : option Q,
    getTemperatureColor temperature = Some (SanJose.getTemperatureColor temperature)
    <-> temperature = None.
Proof.
  intros [t|]; split; intro H; try reflexivity; try discriminate H.
  exfalso.
  destruct (getTemperatureColor_known t) as (c & E & _ & _ & _ & Al).
  pose proof (SanJose_alpha (Some t)) as Al'.
  assert (Hc : c = SanJose.getTemperatureColor (Some t)) by congruence.
  rewrite <- Hc, Al in Al'. discriminate Al'.
Qed.

(** X5.  The two four-bucket functions, of the San Jose screen
    (thresholds 5, 12, 13) and of the forecast map (thresholds 10, 20,
    30), use the same four colours and give the same one exactly below 5
    degrees, from 10 up to 12 degrees, and from 30 degrees on. *)
Theorem bucket_functions_agreement :
  forall t : Q,
    SanJose.getTemperatureColor (Some t) = ForecastMap.getTemperatureColor t
    <-> (t < 5 \/ (10 <= t /\ t < 12) \/ 30 <= t).
Proof.
  intro t. unfold SanJose.getTemperatureColor, ForecastMap.getTemperatureColor.
  destruct (Qlt_bool t 5) eqn:A5;
    [apply Qlt_bool_iff in A5 | apply Qlt_bool_false in A5];
  (destruct (Qlt_bool t 12) eqn:A12;
    [apply Qlt_bool_iff in A12 | apply Qlt_bool_false in A12]);
  (destruct (Qlt_bool t 13) eqn:A13;
    [apply Qlt_bool_iff in A13 | apply Qlt_bool_false in A13]);
  (destruct (Qlt_bool t 10) eqn:A10;
    [apply Qlt_bool_iff in A10 | apply Qlt_bool_false in A10]);
  (destruct (Qlt_bool t 20) eqn:A20;
    [apply Qlt_bool_iff in A20 | apply Qlt_bool_false in A20]);
  (destruct (Qlt_bool t 30) eqn:A30;
    [apply Qlt_bool_iff in A30 | apply Qlt_bool_false in A30]);
  try (exfalso; lra);
  (split; intro H;
   [ first [ discriminate H | left; lra | right; left; lra | right; right; lra ]
   | first [ reflexivity | exfalso; lra ] ]).
Qed.

(* ================================================================== *)
(** * Further properties of the grid *)

Lemma nth_error_map_seq {A : Type} (f : nat -> A) (n : nat) :
  forall (a k : nat) (x : A),
    nth_error (map f (seq a n)) k = Some x -> (k < n)%nat /\ x = f (a + k)%nat.
Proof.
  induction n as [|n IH]; intros a k x N.
  - destruct k; discriminate N.
  - destruct k as [|k].
    + cbn in N. inversion N. split; [lia | f_equal; lia].
    + cbn in N. destruct (IH (S a) k x N) as [L E].
      split; [lia | rewrite E; f_equal; lia].
Qed.

Lemma generateZones_nth (latStart lonStart : Q) (k : nat) (z : Zone) :
  nth_error (generateZones latStart lonStart) k = Some z ->
  (k < numberOfRows * numberOfColumns)%nat /\ z = gridZone latStart lonStart k.
Proof.
  rewrite generateZones_rowMajor. intro N.
  apply nth_error_map_seq in N. exact N.
Qed.



(* ================================================================== *)
(** * Further properties of the centroid *)

Lemma centroid_of_cell (lat0 lon0 : Q) (row col : nat) :
  latitude (computeCentroid (zoneCorners lat0 lon0 row col))
    == lat0 + (Qnat row + (1 # 2)) * latStep
  /\ longitude (computeCentroid (zoneCorners lat0 lon0 row col))
    == lon0 + (Qnat col + (1 # 2)) * lonStep.
Proof.
  unfold zoneCorners.
  match goal with
  | |- context [computeCentroid [?a; ?b; ?c; ?d]] =>
      destruct (computeCentroid_four a b c d) as [E1 E2]
  end.
  rewrite E1, E2. cbn [latitude longitude].
  rewrite (Qnat_succ row), (Qnat_succ col). split; field.
Qed.

Lemma Qnat_inj (a b : nat) : Qnat a == Qnat b -> a = b.
Proof.
  unfold Qnat. intro E. rewrite inject_Z_injective in E. lia.
Qed.

(** X9.  Every marker lies strictly inside its own zone, and no two zones
    of a grid have the same centroid: the centroid of the zone at position
    [k] is strictly between the zone's min and max latitude and longitude,
    and equal centroids (as numbers) occur only at equal positions. *)
Theorem centroids_inside_and_distinct :
  forall (lat0 lon0 : Q) (j k : nat) (zj zk : Zone),
    nth_error (generateZones lat0 lon0) j = Some zj ->
    nth_error (generateZones lat0 lon0) k = Some zk ->
    (exists c0 c1 c2 c3 : Coordinate,
        coordinates zj = [c0; c1; c2; c3]
        /\ latitude c0 < latitude (computeCentroid (coordinates zj))
        /\ latitude (computeCentroid (coordinates zj)) < latitude c2
        /\ longitude c0 < longitude (computeCentroid (coordinates zj))
        /\ longitude (computeCentroid (coordinates zj)) < longitude c2)
    /\ (coord_eq (computeCentroid (coordinates zj)) (computeCentroid (coordinates zk))
        -> j = k).
Proof.
  intros lat0 lon0 j k zj zk Nj Nk.
  destruct (generateZones_nth _ _ _ _ Nj) as [_ ->].
  destruct (generateZones_nth _ _ _ _ Nk) as [_ ->].
  unfold gridZone. cbn [coordinates].
  destruct (centroid_of_cell lat0 lon0 (j / numberOfColumns) (j mod numberOfColumns))
    as [Aj Bj].
  destruct (centroid_of_cell lat0 lon0 (k / numberOfColumns) (k mod numberOfColumns))
    as [Ak Bk].
  split.
  - eexists _, _, _, _. split; [reflexivity|].
    cbn [latitude longitude]. rewrite Aj, Bj.
    rewrite (Qnat_succ (j / numberOfColumns)), (Qnat_succ (j mod numberOfColumns)).
    unfold latStep, lonStep. repeat split; lra.
  - intros [ELat ELon]. rewrite Aj, Ak in ELat. rewrite Bj, Bk in ELon.
    unfold latStep in ELat. unfold lonStep in ELon.
    assert (D : (j / numberOfColumns = k / numberOfColumns)%nat)
      by (apply Qnat_inj; lra).
    assert (M : (j mod numberOfColumns = k mod numberOfColumns)%nat)
      by (apply Qnat_inj; lra).
    rewrite (Nat.div_mod_eq j numberOfColumns), (Nat.div_mod_eq k numberOfColumns).
    rewrite D, M. reflexivity.
Qed.

Lemma centroids_inside_and_distinct_witness :
  exists c0 c1 c2 c3 : Coordinate,
    coordinates (gridZone 1 2 7) = [c0; c1; c2; c3]
    /\ latitude c0 < latitude (computeCentroid (coordinates (gridZone 1 2 7)))
    /\ latitude (computeCentroid (coordinates (gridZone 1 2 7))) < latitude c2
    /\ longitude c0 < longitude (computeCentroid (coordinates (gridZone 1 2 7)))
    /\ longitude (computeCentroid (coordinates (gridZone 1 2 7))) < longitude c2.
Proof.
  exact (proj1 (centroids_inside_and_distinct 1 2 7 8 (gridZone 1 2 7) (gridZone 1 2 8)
                  eq_refl eq_refl)).
Defined.

(* ================================================================== *)
(** * Further properties of the refresh cycle and of rendering *)

Lemma updateZone_fulfilled (service : Q -> Q -> nat * Response) (zone zone' : Zone)
    (at_ : nat) :
  updateZone service zone = (at_, Fulfilled zone') ->
  id zone' = id zone /\ coordinates zone' = coordinates zone
  /\ exists t, temperature zone' = Some t
               /\ snd (fetchTemperatureForZone service
                         (latitude (computeCentroid (coordinates zone)))
                         (longitude (computeCentroid (coordinates zone))))
                  = Fulfilled t.
Proof.
  unfold updateZone.
  destruct (fetchTemperatureForZone service _ _) as [a [t|m]]; cbn; intro E.
  - inversion E; subst. cbn. repeat split. exists t. split; reflexivity.
  - discriminate E.
Qed.

(** The zones a cycle would publish answer the zones it was given, one by
    one and in order. *)
Lemma fulfilledValues_updateZone (service : Q -> Q -> nat * Response)
    (zs : list Zone) :
  firstRejection (map (updateZone service) zs) = None ->
  Forall2 (fun zone zone' =>
             id zone' = id zone /\ coordinates zone' = coordinates zone
             /\ exists t, temperature zone' = Some t
                          /\ snd (fetchTemperatureForZone service
                                    (latitude (computeCentroid (coordinates zone)))
                                    (longitude (computeCentroid (coordinates zone))))
                             = Fulfilled t)
          zs (fulfilledValues (map (updateZone service) zs)).
Proof.
  induction zs as [|z zs IH]; intro F; [constructor|].
  cbn [map firstRejection fulfilledValues] in *.
  destruct (updateZone service z) as [a [z'|m]] eqn:U.
  - constructor; [exact (updateZone_fulfilled _ _ _ _ U) | exact (IH F)].
  - exfalso. destruct (firstRejection (map (updateZone service) zs)) as [[a1 m1]|];
      [destruct (a1 <? a)%nat|]; discriminate F.
Qed.

Lemma firstRejection_none {A : Type} (ps : list (Promise A)) :
  Forall (fun p => exists v, snd p = Fulfilled v) ps -> firstRejection ps = None.
Proof.
  induction 1 as [|[a [v|m]] ps [w E] _ IH]; [reflexivity | exact IH | discriminate E].
Qed.

Lemma Forall2_map_eq {A B C : Type} (f : A -> C) (g : B -> C) (R : A -> B -> Prop)
    (l : list A) (l' : list B) :
  (forall a b, R a b -> g b = f a) -> Forall2 R l l' -> map g l' = map f l.
Proof.
  intros H F. induction F as [|a b l l' Rab _ IH]; [reflexivity|].
  cbn. rewrite (H a b Rab), IH. reflexivity.
Qed.

(** What a cycle does to the published zones and to the error, in the
    one and in the other outcome of [Promise.all]. *)
Lemma fetchZoneTemperatures_fulfilled (service : Q -> Q -> nat * Response)
    (zonesToUpdate : list Zone) (st : ScreenState) :
  firstRejection (map (updateZone service) zonesToUpdate) = None ->
  zones (fetchZoneTemperatures service zonesToUpdate st)
    = fulfilledValues (map (updateZone service) zonesToUpdate)
  /\ error (fetchZoneTemperatures service zonesToUpdate st) = error st.
Proof.
  intro F.
  destruct (incrementCallCount_many zonesToUpdate st) as (_ & _ & E & _).
  unfold fetchZoneTemperatures, Promise_all. rewrite F. cbn.
  split; [reflexivity | exact E].
Qed.

Lemma fetchZoneTemperatures_rejected (service : Q -> Q -> nat * Response)
    (zonesToUpdate : list Zone) (st : ScreenState) :
  firstRejection (map (updateZone service) zonesToUpdate) <> None ->
  zones (fetchZoneTemperatures service zonesToUpdate st) = zones st
  /\ truthy (error (fetchZoneTemperatures service zonesToUpdate st)) = true.
Proof.
  intro F.
  destruct (incrementCallCount_many zonesToUpdate st) as (Z & _ & _ & _).
  unfold fetchZoneTemperatures, Promise_all.
  destruct (firstRejection (map (updateZone service) zonesToUpdate)) as [[a m]|];
    [|congruence].
  cbn. split; [exact Z|]. destruct m; reflexivity.
Qed.

Lemma fetchZoneTemperatures_callCount (service : Q -> Q -> nat * Response)
    (zonesToUpdate : list Zone) (st : ScreenState) :
  apiCallCount (fetchZoneTemperatures service zonesToUpdate st)
  = (apiCallCount st + List.length zonesToUpdate)%nat.
Proof.
  destruct (incrementCallCount_many zonesToUpdate st) as (_ & _ & _ & C).
  unfold fetchZoneTemperatures.
  destruct (Promise_all (map (updateZone service) zonesToUpdate)); cbn; exact C.
Qed.

(** X10.  A refresh cycle in which every fetch succeeds publishes the
    zones it was given, in the same order, each with its identifier and
    corners untouched and with the temperature that was fetched at its
    own centroid; it does not touch the error state and clears the
    loading flag. *)
Theorem successful_refresh_updates_each_zone :
  forall (service : Q -> Q -> nat * Response)
         (zonesToUpdate : list Zone) (st : ScreenState),
    Forall (fun zone =>
              exists t, snd (fetchTemperatureForZone service
                               (latitude (computeCentroid (coordinates zone)))
                               (longitude (computeCentroid (coordinates zone))))
                        = Fulfilled t) zonesToUpdate ->
    Forall2 (fun zone zone' =>
               id zone' = id zone /\ coordinates zone' = coordinates zone
               /\ exists t, temperature zone' = Some t
                            /\ snd (fetchTemperatureForZone service
                                      (latitude (computeCentroid (coordinates zone)))
                                      (longitude (computeCentroid (coordinates zone))))
                               = Fulfilled t)
            zonesToUpdate (zones (fetchZoneTemperatures service zonesToUpdate st))
    /\ error (fetchZoneTemperatures service zonesToUpdate st) = error st
    /\ loading (fetchZoneTemperatures service zonesToUpdate st) = false.
Proof.
  intros service zonesToUpdate st H.
  assert (F : firstRejection (map (updateZone service) zonesToUpdate) = None).
  { apply firstRejection_none, Forall_forall. intros p Ip.
    apply in_map_iff in Ip. destruct Ip as (z & <- & Iz).
    destruct (proj1 (Forall_forall _ _) H z Iz) as [t Ht].
    unfold updateZone.
    destruct (fetchTemperatureForZone service _ _) as [a [v|m]];
      cbn in *; [eauto | discriminate Ht]. }
  destruct (fetchZoneTemperatures_fulfilled service zonesToUpdate st F) as [Z E].
  rewrite Z. split; [apply fulfilledValues_updateZone, F|].
  split; [exact E | reflexivity].
Qed.

Lemma successful_refresh_updates_each_zone_witness :
  error (fetchZoneTemperatures
           (fun _ _ => (0%nat, HttpResponse true (Fulfilled 21)))
           (generateZones 1 2) (mkState [] true None 0)) = None
  /\ loading (fetchZoneTemperatures
                (fun _ _ => (0%nat, HttpResponse true (Fulfilled 21)))
                (generateZones 1 2) (mkState [] true None 0)) = false.
Proof.
  apply (successful_refresh_updates_each_zone
           (fun _ _ => (0%nat, HttpResponse true (Fulfilled 21)))
           (generateZones 1 2) (mkState [] true None 0)).
  apply Forall_forall. intros z _. exists 21. reflexivity.
Defined.

Lemma fetchZoneTemperatures_same_zones (service : Q -> Q -> nat * Response)
    (st : ScreenState) :
  map id (zones (fetchZoneTemperatures service (zones st) st)) = map id (zones st)
  /\ map coordinates (zones (fetchZoneTemperatures service (zones st) st))
     = map coordinates (zones st).
Proof.
  destruct (firstRejection (map (updateZone service) (zones st))) as [[a m]|] eqn:F.
  - destruct (fetchZoneTemperatures_rejected service (zones st) st) as [Z _];
      [congruence|].
    rewrite Z. split; reflexivity.
  - destruct (fetchZoneTemperatures_fulfilled service (zones st) st F) as [Z _].
    rewrite Z. pose proof (fulfilledValues_updateZone service (zones st) F) as H.
    split.
    + apply (Forall2_map_eq id id _ _ _ (fun a b R => proj1 R) H).
    + apply (Forall2_map_eq coordinates coordinates _ _ _
               (fun a b R => proj1 (proj2 R)) H).
Qed.

Lemma pollTick_same_zones (service : Q -> Q -> nat * Response)
    (loc : UseLocation.Result) (st : ScreenState) :
  map id (zones (pollTick service loc st)) = map id (zones st)
  /\ map coordinates (zones (pollTick service loc st)) = map coordinates (zones st).
Proof.
  unfold pollTick. destruct (UseLocation.location loc); [|split; reflexivity].
  destruct (zones st) as [|z zs] eqn:Z; [rewrite Z; split; reflexivity|].
  rewrite <- Z. apply fetchZoneTemperatures_same_zones.
Qed.

(** X11.  Polling never changes which zones are on the map: after any
    number of ticks, each succeeding or failing, the published zones have
    the identifiers and the corners they had before, in the same order
    (only temperatures change). *)
Theorem polling_preserves_ids_and_corners :
  forall (services : list (Q -> Q -> nat * Response))
         (loc : UseLocation.Result) (st : ScreenState),
    map id (zones (pollTicks services loc st)) = map id (zones st)
    /\ map coordinates (zones (pollTicks services loc st)) = map coordinates (zones st).
Proof.
  intros services loc. unfold pollTicks.
  induction services as [|service services IH]; intro st; [split; reflexivity|].
  cbn [fold_left].
  destruct (IH (pollTick service loc st)) as [I C].
  destruct (pollTick_same_zones service loc st) as [I' C'].
  rewrite I, C, I', C'. split; reflexivity.
Qed.

Lemma fetchZoneTemperatures_error_sticky (service : Q -> Q -> nat * Response)
    (zonesToUpdate : list Zone) (st : ScreenState) :
  truthy (error st) = true ->
  truthy (error (fetchZoneTemperatures service zonesToUpdate st)) = true.
Proof.
  intro T.
  destruct (firstRejection (map (updateZone service) zonesToUpdate)) as [[a m]|] eqn:F.
  - apply (fetchZoneTemperatures_rejected service zonesToUpdate st). congruence.
  - destruct (fetchZoneTemperatures_fulfilled service zonesToUpdate st F) as [_ E].
    rewrite E. exact T.
Qed.

Lemma pollTicks_error_sticky (services : list (Q -> Q -> nat * Response))
    (loc : UseLocation.Result) :
  forall st : ScreenState,
    truthy (error st) = true -> truthy (error (pollTicks services loc st)) = true.
Proof.
  unfold pollTicks.
  induction services as [|service services IH]; intros st T; [exact T|].
  cbn [fold_left]. apply IH. unfold pollTick.
  destruct (UseLocation.location loc); [|exact T].
  destruct (zones st); [exact T|].
  apply fetchZoneTemperatures_error_sticky, T.
Qed.

Lemma render_with_error (loc : UseLocation.Result) (st : ScreenState) :
  truthy (error st) = true -> ~ showsMap (render loc st).
Proof.
  intro T. unfold render.
  destruct (UseLocation.location loc); [|cbn; tauto].
  destruct (truthy (UseLocation.errorMsg loc)); [cbn; tauto|].
  rewrite T. cbn. tauto.
Qed.

(** X12.  The fetch error is never cleared.  Once one refresh cycle has
    failed, the screen does not show the map again: whatever later
    polling ticks do, succeed or fail, the component returns the loading
    or the error view. *)
Theorem failed_cycle_hides_the_map_for_good :
  forall (service : Q -> Q -> nat * Response) (zonesToUpdate : list Zone)
         (st : ScreenState) (later : list (Q -> Q -> nat * Response))
         (loc : UseLocation.Result),
    (exists zone, In zone zonesToUpdate /\ fetchFails service zone) ->
    ~ showsMap (render loc
                 (pollTicks later loc (fetchZoneTemperatures service zonesToUpdate st))).
Proof.
  intros service zonesToUpdate st later loc (zone & I & F).
  apply render_with_error, pollTicks_error_sticky.
  apply (fetchZoneTemperatures_rejected service zonesToUpdate st).
  destruct (updateZone_rejected_In service zone zonesToUpdate I F) as (a & m & R).
  apply (firstRejection_complete _ a m R).
Qed.

Lemma failed_cycle_hides_the_map_for_good_witness :
  ~ showsMap
      (render (UseLocation.mkResult (Some (mkCoordinate 1 2)) None)
         (pollTicks [fun _ _ => (0%nat, HttpResponse true (Fulfilled 21))]
            (UseLocation.mkResult (Some (mkCoordinate 1 2)) None)
            (fetchZoneTemperatures failingService (generateZones 1 2)
               (mkState (generateZones 1 2) true None 0)))).
Proof.
  apply (failed_cycle_hides_the_map_for_good failingService (generateZones 1 2)
           (mkState (generateZones 1 2) true None 0)).
  exists (gridZone 1 2 0). split.
  - left. reflexivity.
  - exists "Failed to fetch temperature"%string. reflexivity.
Defined.

(** X13.  A refresh cycle costs one API call per zone, whether it
    succeeds or fails: the call counter grows by the number of zones the
    cycle was given, and by 48 in the cycle that the arrival of the
    location starts. *)
Theorem refresh_call_count :
  forall (service : Q -> Q -> nat * Response) (zonesToUpdate : list Zone)
         (l : Coordinate) (st : ScreenState),
    apiCallCount (fetchZoneTemperatures service zonesToUpdate st)
    = (apiCallCount st + List.length zonesToUpdate)%nat
    /\ apiCallCount (locationEffect service (UseLocation.mkResult (Some l) None) st)
       = (apiCallCount st + 48)%nat.
Proof.
  intros service zonesToUpdate l st. split.
  - apply fetchZoneTemperatures_callCount.
  - unfold locationEffect. cbn [UseLocation.location].
    rewrite fetchZoneTemperatures_callCount.
    unfold initialZones. rewrite generateZones_rowMajor, length_map. reflexivity.
Qed.

(* ================================================================== *)
(** * The hooks and the screens that read them *)

(** X14.  The location error is set but never shown on the
    location-centred screen.  Whenever the location hook reports an error
    message, it reports no location, and the component, which tests the
    missing location first, returns the "Fetching your location..." view
    whatever the rest of its state is. *)
Theorem location_error_is_never_shown :
  forall (p : UseLocation.Platform) (st : ScreenState) (m : string),
    UseLocation.errorMsg (UseLocation.useLocation p) = Some m ->
    UseLocation.location (UseLocation.useLocation p) = None
    /\ render (UseLocation.useLocation p) st = ViewFetchingLocation.
Proof.
  intros p st m E.
  assert (L : UseLocation.location (UseLocation.useLocation p) = None).
  { unfold UseLocation.useLocation, UseLocation.effect in *.
    destruct p as [|status position]; [reflexivity|].
    destruct (negb (String.eqb status "granted")); [reflexivity|].
    destruct position; [discriminate E | reflexivity]. }
  split; [exact L|]. unfold render. rewrite L. reflexivity.
Qed.

Lemma location_error_is_never_shown_witness :
  render (UseLocation.useLocation (UseLocation.PermissionStatus "denied" None))
         (mkState (generateZones 1 2) false None 0)
  = ViewFetchingLocation.
Proof.
  apply (location_error_is_never_shown
           (UseLocation.PermissionStatus "denied" None)
           (mkState (generateZones 1 2) false None 0)
           "Permission to access location was denied").
  reflexivity.
Defined.

Lemma successes_keep_error (later : list (nat * UseWeather.WeatherData)) :
  forall st : UseWeather.State,
    UseWeather.loading st = false ->
    UseWeather.error (refetchSuccessfully later st) = UseWeather.error st
    /\ UseWeather.loading (refetchSuccessfully later st) = false.
Proof.
  unfold refetchSuccessfully.
  induction later as [|r later IH]; intros st L; cbn [fold_left].
  - split; [reflexivity | exact L].
  - apply (IH (UseWeather.fetchWeather
                 (UseWeather.Responds true (fst r) (Fulfilled (snd r))) st)).
    reflexivity.
Qed.

(** X15.  The weather hook never clears its error.  After a fetch that
    failed with a message, any number of later fetches that succeed store
    their data, yet the hook still reports that message and a
    [CityWeatherItem] reading the hook still shows it as its error text.
    The failed fetch itself keeps the data that was there. *)
Theorem weather_error_survives_successes :
  forall (st : UseWeather.State) (c : Ascii.ascii) (m : string)
         (later : list (nat * UseWeather.WeatherData)),
    UseWeather.error
      (refetchSuccessfully later
         (UseWeather.fetchWeather (UseWeather.FetchRejects (String c m)) st))
    = Some (String c m)
    /\ UseWeather.data
         (UseWeather.fetchWeather (UseWeather.FetchRejects (String c m)) st)
       = UseWeather.data st
    /\ HomeScreen.CityWeatherItem
         (refetchSuccessfully later
            (UseWeather.fetchWeather (UseWeather.FetchRejects (String c m)) st))
       = HomeScreen.ErrorText (String c m).
Proof.
  intros st c m later.
  destruct (successes_keep_error later
              (UseWeather.fetchWeather (UseWeather.FetchRejects (String c m)) st)
              eq_refl) as [E L].
  split; [exact E|]. split; [reflexivity|].
  unfold HomeScreen.CityWeatherItem. rewrite L, E. reflexivity.
Qed.

(** X16.  A temperature of exactly zero.  The home screen's item tests
    the temperature for truthiness, so it prints N/A at 0 degrees, and
    only there; the overlay of the forecast map and the markers of the
    location-centred screen test for [undefined] or [null] and print the
    zero. *)
Theorem zero_degrees_is_not_available_on_home_screen :
  forall (t : Q) (rest : list Q) (codes : option (list Q)),
    (HomeScreen.CityWeatherItem
       (UseWeather.mkHook
          (Some (UseWeather.mkData (Some (UseWeather.mkHourly (Some (t :: rest)) codes))))
          false None)
     = HomeScreen.TemperatureText (Caption "N/A") <-> t == 0)
    /\ (HomeScreen.CityWeatherItem
          (UseWeather.mkHook
             (Some (UseWeather.mkData (Some (UseWeather.mkHourly (Some (t :: rest)) codes))))
             false None)
        = HomeScreen.TemperatureText (Degrees t) <-> ~ t == 0)
    /\ ForecastMap.overlayTemperature
         (Some (UseWeather.mkData (Some (UseWeather.mkHourly (Some (t :: rest)) codes))))
       = Some (Degrees t)
    /\ forall (i : string) (cs : list Coordinate),
         markerLabel (mkZone i cs (Some t)) = Degrees t.
Proof.
  intros t rest codes.
  unfold HomeScreen.CityWeatherItem, truthyNumber. cbn.
  destruct (Qeq_bool t 0) eqn:Z; cbn.
  - apply Qeq_bool_iff in Z. repeat split; try tauto; try discriminate; auto.
  - assert (NZ : ~ t == 0) by (intro E; apply Qeq_bool_iff in E; congruence).
    repeat split; try tauto; try discriminate; auto.
Qed.

(* ================================================================== *)
(** * The home screen's cities *)

Lemma orString_truthy (a : option string) (b : string) :
  truthy a = true -> a = Some (orString a b).
Proof. destruct a as [[|c r]|]; cbn; congruence. Qed.

Lemma orString_not_empty (a : option string) (b : string) :
  b <> EmptyString -> orString a b <> EmptyString.
Proof. destruct a as [[|c r]|]; cbn; congruence. Qed.

Lemma orOption_truthy (a b : option string) :
  truthy (orOption a b) = true ->
  (truthy a = true /\ orOption a b = a) \/ (truthy a = false /\ orOption a b = b).
Proof.
  unfold orOption. destruct (truthy a) eqn:T; intro H; [left | right]; split;
    reflexivity.
Qed.

(** X17.  The names of a city are never empty, and a suggestion offered
    to the user never needs a placeholder: for every suggestion that
    [fetchSuggestions] lets through, the city built from it by
    [handleSelectSuggestion] carries the address's own city, town or
    village as its name and the address's own state and country. *)
Theorem offered_suggestions_have_real_names :
  forall (parseFloat : string -> Q)
         (geocode : string -> Settled (list HomeScreen.NominatimSearchResult))
         (st : HomeScreen.State) (s : HomeScreen.NominatimSearchResult),
    In s (HomeScreen.suggestions (HomeScreen.fetchSuggestions geocode st)) ->
    (HomeScreen.city (HomeScreen.address s)
       = Some (HomeScreen.cityName (HomeScreen.cityOfSuggestion parseFloat s))
     \/ HomeScreen.town (HomeScreen.address s)
       = Some (HomeScreen.cityName (HomeScreen.cityOfSuggestion parseFloat s))
     \/ HomeScreen.village (HomeScreen.address s)
       = Some (HomeScreen.cityName (HomeScreen.cityOfSuggestion parseFloat s)))
    /\ HomeScreen.state (HomeScreen.address s)
       = Some (HomeScreen.cityState (HomeScreen.cityOfSuggestion parseFloat s))
    /\ HomeScreen.country (HomeScreen.address s)
       = Some (HomeScreen.cityCountry (HomeScreen.cityOfSuggestion parseFloat s))
    /\ HomeScreen.cityName (HomeScreen.cityOfSuggestion parseFloat s) <> EmptyString
    /\ HomeScreen.cityState (HomeScreen.cityOfSuggestion parseFloat s) <> EmptyString
    /\ HomeScreen.cityCountry (HomeScreen.cityOfSuggestion parseFloat s) <> EmptyString.
Proof.
  intros parseFloat geocode st s I.
  assert (F : HomeScreen.hasFullAddress s = true).
  { unfold HomeScreen.fetchSuggestions in I. cbn [HomeScreen.suggestions] in I.
    destruct (2 <? String.length (HomeScreen.newCityName st))%nat; [|destruct I].
    destruct (geocode (HomeScreen.newCityName st)) as [results|m]; [|destruct I].
    apply filter_In in I. apply I. }
  unfold HomeScreen.hasFullAddress in F.
  apply andb_true_iff in F. destruct F as [F C].
  apply andb_true_iff in F. destruct F as [N S].
  unfold HomeScreen.cityOfSuggestion.
  cbn [HomeScreen.cityName HomeScreen.cityState HomeScreen.cityCountry].
  unfold HomeScreen.nameOf, HomeScreen.stateOf, HomeScreen.countryOf.
  split; [|split; [|split; [|split; [|split]]]].
  - pose proof (orString_truthy _ "Unknown City" N) as E. rewrite <- E.
    destruct (orOption_truthy _ _ N) as [[T1 E1]|[T1 E1]]; rewrite E1.
    + destruct (orOption_truthy _ _ T1) as [[T2 E2]|[T2 E2]]; rewrite E2; auto.
    + auto.
  - apply orString_truthy, S.
  - apply orString_truthy, C.
  - apply orString_not_empty. discriminate.
  - apply orString_not_empty. discriminate.
  - apply orString_not_empty. discriminate.
Qed.

Lemma offered_suggestions_have_real_names_witness :
  HomeScreen.state (HomeScreen.address parisResult)
  = Some (HomeScreen.cityState (HomeScreen.cityOfSuggestion (fun _ => 0) parisResult)).
Proof.
  apply (offered_suggestions_have_real_names (fun _ => 0)
           (fun _ => Fulfilled [parisResult])
           (HomeScreen.mkHome None [] true "Paris" [])).
  left. reflexivity.
Defined.

Lemma find_cityId_none (i : string) (l : list HomeScreen.CityData) :
  find (fun c => String.eqb (HomeScreen.cityId c) i) l = None <->
  ~ In i (map HomeScreen.cityId l).
Proof.
  induction l as [|c l IH]; cbn.
  - tauto.
  - destruct (String.eqb (HomeScreen.cityId c) i) eqn:E.
    + apply String.eqb_eq in E. split; [discriminate | intro H; exfalso; auto].
    + apply String.eqb_neq in E. rewrite IH. tauto.
Qed.

Lemma NoDup_snoc {A : Type} (l : list A) (a : A) :
  NoDup l -> ~ In a l -> NoDup (l ++ [a]).
Proof.
  induction l as [|b l IH]; intros ND NI; cbn.
  - constructor; [intros [] | constructor].
  - inversion ND as [|b' l' NB ND']; subst. constructor.
    + intro I. apply in_app_or in I. destruct I as [I|[E|[]]].
      * exact (NB I).
      * apply NI. left. symmetry. exact E.
    + apply IH; [exact ND' | intro I; apply NI; right; exact I].
Qed.

(** X18.  The list of added cities never holds one identifier twice, and
    selecting a suggestion is idempotent: [handleSelectSuggestion] keeps
    the identifiers pairwise distinct, leaves the cities already there in
    place and in order, adds at most the one new city at the end, makes
    sure the selected place is listed, and selecting the same suggestion
    again changes nothing. *)
Theorem selecting_a_suggestion_keeps_cities_unique :
  forall (parseFloat : string -> Q) (s : HomeScreen.NominatimSearchResult)
         (st : HomeScreen.State),
    NoDup (map HomeScreen.cityId (HomeScreen.cities st)) ->
    NoDup (map HomeScreen.cityId
               (HomeScreen.cities (HomeScreen.handleSelectSuggestion parseFloat s st)))
    /\ (exists added : list HomeScreen.CityData,
          HomeScreen.cities (HomeScreen.handleSelectSuggestion parseFloat s st)
          = HomeScreen.cities st ++ added
          /\ (List.length added <= 1)%nat)
    /\ In (string_of_Z (HomeScreen.place_id s))
          (map HomeScreen.cityId
               (HomeScreen.cities (HomeScreen.handleSelectSuggestion parseFloat s st)))
    /\ HomeScreen.handleSelectSuggestion parseFloat s
         (HomeScreen.handleSelectSuggestion parseFloat s st)
       = HomeScreen.handleSelectSuggestion parseFloat s st.
Proof.
  intros parseFloat s st ND.
  unfold HomeScreen.handleSelectSuggestion.
  cbn [HomeScreen.cities HomeScreen.userCity].
  set (newCity := HomeScreen.cityOfSuggestion parseFloat s).
  assert (Id : HomeScreen.cityId newCity = string_of_Z (HomeScreen.place_id s))
    by reflexivity.
  destruct (find (fun c => String.eqb (HomeScreen.cityId c) (HomeScreen.cityId newCity))
                 (HomeScreen.cities st)) as [found|] eqn:F.
  - split; [exact ND|]. split; [exists []; rewrite app_nil_r; split; [reflexivity | cbn; lia]|].
    split.
    + rewrite <- Id.
      destruct (in_dec string_dec (HomeScreen.cityId newCity)
                       (map HomeScreen.cityId (HomeScreen.cities st))) as [I|NI];
        [exact I|].
      apply find_cityId_none in NI. congruence.
    + rewrite F. reflexivity.
  - pose proof (proj1 (find_cityId_none _ _) F) as NI.
    split; [|split; [|split]].
    + rewrite map_app. cbn [map]. apply NoDup_snoc; assumption.
    + exists [newCity]. split; [reflexivity | cbn; lia].
    + rewrite <- Id, map_app. apply in_or_app. right. left. reflexivity.
    + assert (F' : find (fun c => String.eqb (HomeScreen.cityId c) (HomeScreen.cityId newCity))
                        (HomeScreen.cities st ++ [newCity]) = Some newCity).
      { clear ND NI Id. revert F. generalize (HomeScreen.cities st) as l.
        induction l as [|c l IH]; cbn [find app]; intro F.
        - rewrite String.eqb_refl. reflexivity.
        - destruct (String.eqb (HomeScreen.cityId c) (HomeScreen.cityId newCity));
            [discriminate F | exact (IH F)]. }
      rewrite F'. reflexivity.
Qed.

Lemma selecting_a_suggestion_keeps_cities_unique_witness :
  HomeScreen.handleSelectSuggestion (fun _ => 0) parisResult
    (HomeScreen.handleSelectSuggestion (fun _ => 0) parisResult
       (HomeScreen.mkHome None [] true "Par" [parisResult]))
  = HomeScreen.handleSelectSuggestion (fun _ => 0) parisResult
      (HomeScreen.mkHome None [] true "Par" [parisResult]).
Proof.
  apply (selecting_a_suggestion_keeps_cities_unique (fun _ => 0) parisResult
           (HomeScreen.mkHome None [] true "Par" [parisResult])).
  constructor.
Defined.

(* ================================================================== *)
(** * The forecast map's overlay *)

Lemma getWeatherDescription_not_empty (code : Q) :
  ForecastMap.getWeatherDescription code <> EmptyString.
Proof.
  unfold ForecastMap.getWeatherDescription.
  repeat match goal with
         | |- (if ?b then _ else _) <> _ => destruct b
         end; discriminate.
Qed.

(** X19.  The description of a weather code is never the empty string,
    so the truthiness test of the overlay never swallows one: the second
    line of the overlay is the description of the first weather code
    whenever the data carries one, and it is empty exactly when there is
    no data or no first weather code. *)
Theorem overlay_shows_every_description :
  forall data : option UseWeather.WeatherData,
    (forall code : Q,
        ForecastMap.currentWeatherCode data = Some code ->
        ForecastMap.overlayCondition data = ForecastMap.getWeatherDescription code)
    /\ (ForecastMap.overlayCondition data = EmptyString
        <-> ForecastMap.currentWeatherCode data = None).
Proof.
  intro data. unfold ForecastMap.overlayCondition, ForecastMap.currentWeatherCondition.
  destruct (ForecastMap.currentWeatherCode data) as [code|] eqn:C.
  - pose proof (getWeatherDescription_not_empty code) as NE.
    destruct data as [d|]; [|discriminate C].
    destruct (ForecastMap.getWeatherDescription code) as [|c r] eqn:D; [congruence|].
    cbn. split.
    + intros code' E. inversion E; subst. symmetry. exact D.
    + split; discriminate.
  - split; [discriminate|]. destruct data; cbn; split; reflexivity.
Qed.

(* ================================================================== *)
(** * From the location to the coloured map *)

Lemma initialZones_length (l : Coordinate) : List.length (initialZones l) = 48%nat.
Proof. unfold initialZones. rewrite generateZones_rowMajor, length_map. reflexivity. Qed.

Lemma Forall2_Forall_r {A B : Type} (R : A -> B -> Prop) (P : B -> Prop)
    (l : list A) (l' : list B) :
  (forall a b, R a b -> P b) -> Forall2 R l l' -> Forall P l'.
Proof.
  intros H F. induction F as [|a b l l' Rab _ IH]; constructor; eauto.
Qed.

Lemma updateZone_succeeds (service : Q -> Q -> nat * Response) (zone : Zone) :
  (exists t, snd (fetchTemperatureForZone service
                    (latitude (computeCentroid (coordinates zone)))
                    (longitude (computeCentroid (coordinates zone))))
             = Fulfilled t) ->
  exists v, snd (updateZone service zone) = Fulfilled v.
Proof.
  intros [t Ht]. unfold updateZone.
  destruct (fetchTemperatureForZone service _ _) as [a [v|m]];
    cbn [snd thenMap] in *; [eauto | discriminate Ht].
Qed.

(** X20.  The first refresh, end to end.  When the location arrives, no
    error is pending and the weather service answers every request with a
    temperature, the component shows the map, centred on the location,
    with 48 polygons and 48 markers; every polygon is filled with a
    gradient colour of alpha 0.5 (none with the gray of an unknown
    temperature) and every marker shows a temperature. *)
Theorem first_refresh_shows_the_coloured_grid :
  forall (service : Q -> Q -> nat * Response) (l : Coordinate) (st : ScreenState),
    truthy (error st) = false ->
    (forall lat lon : Q,
        exists t, snd (fetchTemperatureForZone service lat lon) = Fulfilled t) ->
    exists polygons markers,
      render (UseLocation.mkResult (Some l) None)
             (locationEffect service (UseLocation.mkResult (Some l) None) st)
      = ViewMap (mkCoordinate (latitude l) (longitude l)) polygons markers
      /\ List.length polygons = 48%nat
      /\ List.length markers = 48%nat
      /\ Forall (fun p => exists c, snd p = Some c /\ alpha c = 5 # 10) polygons
      /\ Forall (fun m => exists t, snd m = Degrees t) markers.
Proof.
  intros service l st NoErr Ok.
  unfold locationEffect. cbn [UseLocation.location].
  generalize (initialZones_length l). generalize (initialZones l). intros grid Len48.
  assert (Ok' : Forall (fun zone => exists v, snd (updateZone service zone) = Fulfilled v)
                       grid).
  { apply Forall_forall. intros zone _. apply updateZone_succeeds, Ok. }
  destruct (successful_refresh_publishes service grid (setZones grid st) Ok')
    as (Z & Len & E).
  assert (F : firstRejection (map (updateZone service) grid) = None).
  { apply firstRejection_none, Forall_forall. intros p Ip.
    apply in_map_iff in Ip. destruct Ip as (z & <- & Iz).
    exact (proj1 (Forall_forall _ _) Ok' z Iz). }
  pose proof (fulfilledValues_updateZone service grid F) as H. rewrite <- Z in H.
  assert (Known : Forall (fun z => exists t, temperature z = Some t)
                         (zones (fetchZoneTemperatures service grid (setZones grid st)))).
  { apply (Forall2_Forall_r _ _ _ _ (fun a b R =>
             match proj2 (proj2 R) with ex_intro _ t (conj T _) => ex_intro _ t T end) H). }
  unfold render. cbn [UseLocation.location UseLocation.errorMsg truthy].
  rewrite E. change (error (setZones grid st)) with (error st). rewrite NoErr.
  eexists _, _. split; [reflexivity|].
  rewrite !length_map, Len.
  split; [exact Len48|]. split; [exact Len48|]. split.
  - apply Forall_map. eapply Forall_impl; [|exact Known].
    intros z [t T]. cbn [snd]. rewrite T.
    destruct (getTemperatureColor_known t) as (c & Ec & _ & _ & _ & Al).
    exists c. split; assumption.
  - apply Forall_map. eapply Forall_impl; [|exact Known].
    intros z [t T]. cbn [snd]. exists t. unfold markerLabel. rewrite T. reflexivity.
Qed.

Lemma first_refresh_shows_the_coloured_grid_witness :
  exists polygons markers,
    render (UseLocation.mkResult (Some (mkCoordinate 1 2)) None)
           (locationEffect (fun _ _ => (0%nat, HttpResponse true (Fulfilled 21)))
              (UseLocation.mkResult (Some (mkCoordinate 1 2)) None)
              (mkState [] true None 0))
    = ViewMap (mkCoordinate 1 2) polygons markers
    /\ List.length polygons = 48%nat
    /\ List.length markers = 48%nat
    /\ Forall (fun p => exists c, snd p = Some c /\ alpha c = 5 # 10) polygons
    /\ Forall (fun m => exists t, snd m = Degrees t) markers.
Proof.
  apply (first_refresh_shows_the_coloured_grid
           (fun _ _ => (0%nat, HttpResponse true (Fulfilled 21)))
           (mkCoordinate 1 2) (mkState [] true None 0)).
  - reflexivity.
  - intros lat lon. exists 21. reflexivity.
Defined.


(* ================================================================== *)
(** * Doubles: comparisons, NaN and the fallback *)

Lemma SFcompare_antisym (x y : spec_float) :
  SFcompare y x = option_map CompOpp (SFcompare x y).
Proof.
  destruct x as [sx| sx | |sx mx ex], y as [sy| sy | |sy my ey];
    try reflexivity;
    try (destruct sx; reflexivity);
    try (destruct sy; reflexivity);
    try (destruct sx, sy; reflexivity).
  cbn [SFcompare option_map].
  rewrite (Z.compare_antisym ex ey).
  change (Pos.compare_cont Eq my mx) with (Pos.compare my mx).
  change (Pos.compare_cont Eq mx my) with (Pos.compare mx my).
  rewrite (Pos.compare_antisym mx my).
  destruct sx, sy; try reflexivity;
    destruct (ex ?= ey)%Z; cbn; try reflexivity;
    destruct (mx ?= my)%positive; reflexivity.
Qed.

Lemma SFcompare_not_nan (x y : spec_float) :
  x <> S754_nan -> y <> S754_nan -> exists c, SFcompare x y = Some c.
Proof.
  intros Nx Ny.
  destruct x as [sx| sx | |sx mx ex], y as [sy| sy | |sy my ey];
    try congruence; cbn; eauto.
Qed.

(** Any two doubles that are not NaN are comparable. *)
Lemma le_total (x y : Binary64.number) :
  x <> Binary64.NaN -> y <> Binary64.NaN ->
  Binary64.le x y = false -> Binary64.le y x = true.
Proof.
  unfold Binary64.le, Binary64.NaN, SFleb. intros Nx Ny.
  rewrite (SFcompare_antisym x y).
  destruct (SFcompare_not_nan x y Nx Ny) as [c ->].
  destruct c; cbn; congruence.
Qed.

Lemma le_nan_l (y : Binary64.number) : Binary64.le Binary64.NaN y = false.
Proof. reflexivity. Qed.

Lemma le_nan_r (x : Binary64.number) : Binary64.le x Binary64.NaN = false.
Proof. destruct x; reflexivity. Qed.

Lemma le_true_not_nan (x y : Binary64.number) :
  Binary64.le x y = true -> x <> Binary64.NaN /\ y <> Binary64.NaN.
Proof.
  intro L. split; intro E; subst.
  - rewrite le_nan_l in L. discriminate L.
  - rewrite le_nan_r in L. discriminate L.
Qed.

Lemma interpolationLoop64_cons2 (x : Binary64.number) (s e : Binary64.GradientStop)
    (rest : list Binary64.GradientStop) :
  Binary64.interpolationLoop x (s :: e :: rest) =
  if Binary64.encloses s e x then Some (Binary64.interpolateBetween s e x)
  else Binary64.interpolationLoop x (e :: rest).
Proof. reflexivity. Qed.

(** With NaN no iteration's test holds. *)
Lemma interpolationLoop64_nan (stops : list Binary64.GradientStop) :
  Binary64.interpolationLoop Binary64.NaN stops = None.
Proof.
  induction stops as [|s rest IH]; [reflexivity|].
  destruct rest as [|e rest]; [reflexivity|].
  rewrite interpolationLoop64_cons2.
  unfold Binary64.encloses, Binary64.ge. rewrite le_nan_r. exact IH.
Qed.

(** From a stop at or below [x] up to a last stop that is not at or below
    [x], the loop returns from inside. *)
Lemma interpolationLoop64_returns (rest : list Binary64.GradientStop) :
  forall (s d : Binary64.GradientStop) (x : Binary64.number),
    Forall (fun st => Binary64.temp st <> Binary64.NaN) (s :: rest) ->
    Binary64.le (Binary64.temp s) x = true ->
    Binary64.le (Binary64.temp (last (s :: rest) d)) x = false ->
    exists c, Binary64.interpolationLoop x (s :: rest) = Some c.
Proof.
  induction rest as [|e rest IH]; intros s d x NN Lo Hi.
  - cbn in Hi. congruence.
  - rewrite interpolationLoop64_cons2.
    destruct (Binary64.encloses s e x) eqn:En; [eauto|].
    apply (IH e d x).
    + inversion NN; assumption.
    + pose proof (proj2 (le_true_not_nan _ _ Lo)) as Nx.
      unfold Binary64.encloses, Binary64.ge, Binary64.le in En.
      unfold Binary64.le in Lo. rewrite Lo in En. cbn [andb] in En.
      apply le_total; [exact Nx | | exact En].
      inversion NN as [|? ? _ NN']. inversion NN'; assumption.
    + exact Hi.
Qed.

(** On a table without NaN stops the fallback is reached by NaN and by
    nothing else. *)
Lemma reachesFallback_iff (first : Binary64.GradientStop)
    (rest : list Binary64.GradientStop) (x : Binary64.number) :
  Forall (fun st => Binary64.temp st <> Binary64.NaN) (first :: rest) ->
  Binary64.reachesFallback (first :: rest) x <-> x = Binary64.NaN.
Proof.
  intro NN. split.
  - intros (f & r & E & T1 & T2 & L). inversion E; subst f r.
    destruct x as [sx| sx | |sx mx ex] eqn:X; [| |reflexivity|]; exfalso;
      rewrite <- X in *;
      (assert (Nx : x <> Binary64.NaN) by (rewrite X; discriminate));
      (assert (Lo : Binary64.le (Binary64.temp first) x = true)
         by (apply le_total; [exact Nx | inversion NN; assumption | exact T1]));
      destruct (interpolationLoop64_returns rest first first x NN Lo T2) as [c Hc];
      congruence.
  - intros ->. exists first, rest. split; [reflexivity|].
    split; [apply le_nan_l|]. split; [apply le_nan_r | apply interpolationLoop64_nan].
Qed.

Lemma getTemperatureColorFrom64_fallback (first : Binary64.GradientStop)
    (rest : list Binary64.GradientStop) (t : Binary64.Temperature) :
  t <> Binary64.Null ->
  Binary64.reachesFallback (first :: rest) (Binary64.toNumber t) ->
  Binary64.getTemperatureColorFrom (first :: rest) t = Some Binary64.neutralGray.
Proof.
  intros NNull (f & r & E & T1 & T2 & L). inversion E; subst f r.
  unfold Binary64.getTemperatureColorFrom.
  destruct t as [| |x]; [congruence| |]; cbv zeta; rewrite T1, T2, L; reflexivity.
Qed.

(** The three ways out for a number that is not NaN. *)
Lemma getTemperatureColorFrom64_number (first : Binary64.GradientStop)
    (rest : list Binary64.GradientStop) (x : Binary64.number) :
  Forall (fun st => Binary64.temp st <> Binary64.NaN) (first :: rest) ->
  x <> Binary64.NaN ->
  (Binary64.le x (Binary64.temp first) = true
   /\ Binary64.getTemperatureColorFrom (first :: rest) (Binary64.Num x)
      = Some (Binary64.rgbaFromColor (Binary64.color first) Binary64.defaultAlpha))
  \/ (Binary64.le x (Binary64.temp first) = false
      /\ Binary64.ge x (Binary64.temp (last (first :: rest) first)) = true
      /\ Binary64.getTemperatureColorFrom (first :: rest) (Binary64.Num x)
         = Some (Binary64.rgbaFromColor
                   (Binary64.color (last (first :: rest) first)) Binary64.defaultAlpha))
  \/ (Binary64.le x (Binary64.temp first) = false
      /\ Binary64.ge x (Binary64.temp (last (first :: rest) first)) = false
      /\ exists c, Binary64.interpolationLoop x (first :: rest) = Some c
                   /\ Binary64.getTemperatureColorFrom (first :: rest) (Binary64.Num x)
                      = Some c).
Proof.
  intros NN Nx. unfold Binary64.getTemperatureColorFrom. cbv zeta.
  cbn [Binary64.toNumber].
  destruct (Binary64.le x (Binary64.temp first)) eqn:T1.
  - left. split; reflexivity.
  - right.
    destruct (Binary64.ge x (Binary64.temp (last (first :: rest) first))) eqn:T2.
    + left. repeat split.
    + right. split; [reflexivity|]. split; [reflexivity|].
      assert (Lo : Binary64.le (Binary64.temp first) x = true)
        by (apply le_total; [exact Nx | inversion NN; assumption | exact T1]).
      destruct (interpolationLoop64_returns rest first first x NN Lo T2) as [c Hc].
      exists c. rewrite Hc. split; reflexivity.
Qed.

Lemma gradient64_no_nan :
  Forall (fun st => Binary64.temp st <> Binary64.NaN) Binary64.gradient.
Proof.
  unfold Binary64.gradient.
  repeat (apply Forall_cons; [vm_compute; discriminate|]). apply Forall_nil.
Qed.

Lemma gradient64_ends (first last_ : Binary64.GradientStop) :
  nth_error Binary64.gradient 0 = Some first ->
  nth_error Binary64.gradient (List.length Binary64.gradient - 1) = Some last_ ->
  exists rest, Binary64.gradient = first :: rest /\ last (first :: rest) first = last_.
Proof.
  unfold Binary64.gradient. cbn [nth_error List.length Nat.sub].
  intros F L. injection F as <-. injection L as <-.
  eexists. split; reflexivity.
Qed.

Lemma interpolationLoop64_alpha (x : Binary64.number) (stops : list Binary64.GradientStop) :
  forall c, Binary64.interpolationLoop x stops = Some c ->
            Binary64.alpha c = Binary64.defaultAlpha.
Proof.
  induction stops as [|s rest IH]; intros c H; [discriminate H|].
  destruct rest as [|e rest]; [discriminate H|].
  rewrite interpolationLoop64_cons2 in H.
  destruct (Binary64.encloses s e x).
  - injection H as <-. reflexivity.
  - exact (IH c H).
Qed.

Lemma gray64_alpha : Binary64.alpha Binary64.neutralGray <> Binary64.defaultAlpha.
Proof. vm_compute. discriminate. Qed.

(** C10, as it stands, fails.  NaN is a number and is not [null]; with it
    both clamp tests are false and no iteration of the loop returns, so
    the function ends in the trailing fallback and answers the gray. *)
Lemma NaN_reaches_the_fallback :
  Binary64.Num Binary64.NaN <> Binary64.Null
  /\ Binary64.reachesFallback Binary64.gradient Binary64.NaN
  /\ Binary64.getTemperatureColor (Binary64.Num Binary64.NaN)
     = Some Binary64.neutralGray.
Proof.
  split; [discriminate|]. split.
  - unfold Binary64.gradient. eexists _, _. split; [reflexivity|].
    split; [apply le_nan_l|]. split; [apply le_nan_r | apply interpolationLoop64_nan].
  - reflexivity.
Qed.

(** C10, amended.  Over doubles and the screen's table: every number
    that is not NaN returns from the first clamp, from the second clamp
    or from inside the loop, so for it the trailing fallback is not
    reached; the fallback is reached exactly by NaN, which is what
    [undefined] (the first element of an empty [temperature_2m] array)
    converts to, and it then answers the neutral gray. *)
Theorem fallback_is_reached_only_by_NaN :
  forall (first last_ : Binary64.GradientStop),
    nth_error Binary64.gradient 0 = Some first ->
    nth_error Binary64.gradient (List.length Binary64.gradient - 1) = Some last_ ->
    (forall x : Binary64.number,
        x <> Binary64.NaN ->
        (Binary64.le x (Binary64.temp first) = true
         /\ Binary64.getTemperatureColor (Binary64.Num x)
            = Some (Binary64.rgbaFromColor (Binary64.color first) Binary64.defaultAlpha))
        \/ (Binary64.le x (Binary64.temp first) = false
            /\ Binary64.ge x (Binary64.temp last_) = true
            /\ Binary64.getTemperatureColor (Binary64.Num x)
               = Some (Binary64.rgbaFromColor (Binary64.color last_)
                                              Binary64.defaultAlpha))
        \/ (Binary64.le x (Binary64.temp first) = false
            /\ Binary64.ge x (Binary64.temp last_) = false
            /\ exists c, Binary64.interpolationLoop x Binary64.gradient = Some c
                         /\ Binary64.getTemperatureColor (Binary64.Num x) = Some c))
    /\ (forall x : Binary64.number,
          Binary64.reachesFallback Binary64.gradient x <-> x = Binary64.NaN)
    /\ Binary64.getTemperatureColor (Binary64.Num Binary64.NaN)
       = Some Binary64.neutralGray
    /\ Binary64.firstTemperature [] = Binary64.Undefined
    /\ Binary64.toNumber Binary64.Undefined = Binary64.NaN
    /\ Binary64.getTemperatureColor Binary64.Undefined = Some Binary64.neutralGray.
Proof.
  intros first last_ F L.
  destruct (gradient64_ends first last_ F L) as (rest & G & EL).
  pose proof gradient64_no_nan as NN.
  unfold Binary64.getTemperatureColor. rewrite G in *. rewrite <- EL.
  split; [|split; [|split; [|split; [|split]]]].
  - intros x Nx. exact (getTemperatureColorFrom64_number first rest x NN Nx).
  - intro x. exact (reachesFallback_iff first rest x NN).
  - apply getTemperatureColorFrom64_fallback; [discriminate|].
    apply (reachesFallback_iff first rest _ NN). reflexivity.
  - reflexivity.
  - reflexivity.
  - apply getTemperatureColorFrom64_fallback; [discriminate|].
    apply (reachesFallback_iff first rest _ NN). reflexivity.
Qed.

Lemma fallback_is_reached_only_by_NaN_witness :
  exists c, Binary64.interpolationLoop (Binary64.ofZ 3) Binary64.gradient = Some c
            /\ Binary64.getTemperatureColor (Binary64.Num (Binary64.ofZ 3)) = Some c.
Proof.
  destruct (proj1 (fallback_is_reached_only_by_NaN
                     (Binary64.stop (Binary64.ofZ (-10)) 0 0 139)
                     (Binary64.stop (Binary64.ofZ 35) 100 0 0) eq_refl eq_refl)
                  (Binary64.ofZ 3))
    as [[T _] | [(_ & T & _) | (_ & _ & H)]].
  - vm_compute. discriminate.
  - vm_compute in T. discriminate T.
  - vm_compute in T. discriminate T.
  - exact H.
Defined.

(** X1.  Error and fallback behaviour over every table, in doubles.  On
    the empty table every temperature other than [null] makes the
    function throw, while [null] still gives the gray.  On every table
    with at least one stop and no NaN among its stop temperatures,
    ascending or not, the fallback after the loop is reached exactly by
    NaN (hence also by [undefined], which converts to NaN), and the
    answer is then the gray; every other number returns from the first
    clamp, from the second clamp or from inside the loop. *)
Theorem fallback_reached_exactly_by_NaN :
  forall (t : Binary64.Temperature),
    (t <> Binary64.Null -> Binary64.getTemperatureColorFrom [] t = None)
    /\ Binary64.getTemperatureColorFrom [] Binary64.Null = Some Binary64.neutralGray
    /\ forall (first : Binary64.GradientStop) (rest : list Binary64.GradientStop),
         Forall (fun st => Binary64.temp st <> Binary64.NaN) (first :: rest) ->
         (forall x : Binary64.number,
             Binary64.reachesFallback (first :: rest) x <-> x = Binary64.NaN)
         /\ (t <> Binary64.Null -> Binary64.toNumber t = Binary64.NaN ->
             Binary64.getTemperatureColorFrom (first :: rest) t
             = Some Binary64.neutralGray)
         /\ (forall x : Binary64.number,
               x <> Binary64.NaN ->
               (Binary64.le x (Binary64.temp first) = true
                /\ Binary64.getTemperatureColorFrom (first :: rest) (Binary64.Num x)
                   = Some (Binary64.rgbaFromColor (Binary64.color first)
                                                  Binary64.defaultAlpha))
               \/ (Binary64.le x (Binary64.temp first) = false
                   /\ Binary64.ge x (Binary64.temp (last (first :: rest) first)) = true
                   /\ Binary64.getTemperatureColorFrom (first :: rest) (Binary64.Num x)
                      = Some (Binary64.rgbaFromColor
                                (Binary64.color (last (first :: rest) first))
                                Binary64.defaultAlpha))
               \/ (Binary64.le x (Binary64.temp first) = false
                   /\ Binary64.ge x (Binary64.temp (last (first :: rest) first)) = false
                   /\ exists c,
                        Binary64.interpolationLoop x (first :: rest) = Some c
                        /\ Binary64.getTemperatureColorFrom (first :: rest)
                             (Binary64.Num x) = Some c)).
Proof.
  intro t. split; [|split].
  - intro N. destruct t; [congruence | reflexivity | reflexivity].
  - reflexivity.
  - intros first rest NN. split; [|split].
    + intro x. exact (reachesFallback_iff first rest x NN).
    + intros N E. apply getTemperatureColorFrom64_fallback; [exact N|].
      apply (reachesFallback_iff first rest _ NN). exact E.
    + intros x Nx. exact (getTemperatureColorFrom64_number first rest x NN Nx).
Qed.

(** X2.  The colour of a temperature that is a number.  Over doubles, for
    every number other than NaN, the colour has alpha 0.5 and is not the
    neutral gray that marks an unknown temperature; for NaN and for
    [undefined] it is that gray.  In exact arithmetic each of its
    channels is an integer from 0 to 255. *)
Theorem known_temperature_color_is_valid :
  (forall x : Binary64.number,
      x <> Binary64.NaN ->
      exists c : Binary64.Rgba,
        Binary64.getTemperatureColor (Binary64.Num x) = Some c
        /\ Binary64.alpha c = Binary64.defaultAlpha
        /\ c <> Binary64.neutralGray)
  /\ Binary64.getTemperatureColor (Binary64.Num Binary64.NaN)
     = Some Binary64.neutralGray
  /\ Binary64.getTemperatureColor Binary64.Undefined = Some Binary64.neutralGray
  /\ (forall t : Q,
        exists c : Rgba,
          getTemperatureColor (Some t) = Some c
          /\ validChannel (red c) /\ validChannel (green c) /\ validChannel (blue c)
          /\ alpha c = 5 # 10
          /\ c <> neutralGray).
Proof.
  split; [|split; [|split]].
  - intros x Nx. unfold Binary64.getTemperatureColor.
    pose proof gradient64_no_nan as NN. unfold Binary64.gradient in *.
    match type of NN with
    | Forall _ (?f :: ?r) =>
        destruct (getTemperatureColorFrom64_number f r x NN Nx)
          as [[_ E] | [(_ & _ & E) | (_ & _ & c & Lc & E)]]
    end.
    + eexists. split; [exact E|]. split; [reflexivity|].
      intro G. apply gray64_alpha. rewrite <- G. reflexivity.
    + eexists. split; [exact E|]. split; [reflexivity|].
      intro G. apply gray64_alpha. rewrite <- G. reflexivity.
    + exists c. split; [exact E|].
      pose proof (interpolationLoop64_alpha _ _ _ Lc) as Al.
      split; [exact Al|]. intro G. apply gray64_alpha. rewrite <- G. exact Al.
  - reflexivity.
  - reflexivity.
  - intro t. destruct (getTemperatureColor_known t) as (c & E & R & G & B & Al).
    exists c. repeat (split; [assumption|]).
    intro N. rewrite N in Al. discriminate Al.
Qed.

(* ================================================================== *)
(** * Doubles: the grid and the centroid *)





(** The spans themselves are rounded: in the grid of origin (1, 2) the
    zone at position 7 is less than 0.08 degrees high. *)
Example span_is_rounded :
  exists c0 c1 c2 c3 : Binary64.Coordinate,
    Binary64.zoneCorners (Binary64.ofZ 1) (Binary64.ofZ 2) 1 1 = [c0; c1; c2; c3]
    /\ Binary64.sub (Binary64.latitude c2) (Binary64.latitude c0) <> Binary64.latStep.
Proof.
  eexists _, _, _, _. split; [reflexivity|]. vm_compute. discriminate.
Qed.



